(** * Rasterize / reorder / emit pipeline of the PDF printer

    A shallow embedding of [WorkingPDFPrinter] and [find_ghostscript]
    (pdf_printer.py), of the endpoints and the job table of
    print_server.py and of the start/stop logic of control_panel.py,
    followed by the properties of the reordering stage, the emission
    routine, the job driver, the HTTP handlers, the job table and the
    control panel.

    Conventions.
    - Python integers are [Z]; the [dict] used as reorder buffer is a
      [gmap Z Image]; strings are [string].
    - Python floats are IEEE-754 binary64 numbers: Rocq's primitive
      [float].  The model converts integers to floats exactly as CPython
      does for integers below 2^53 in magnitude, which covers the 32-bit
      sizes that GDI and PIL report.
    - The printer device and the PIL calls that can raise are driven by
      an environment [Env]: it decides, from the calls issued so far,
      whether the next call succeeds.  Every call is logged in the
      [trace] of the printer object, which is a ghost field: the code
      never reads it.
    - Exceptions are explicit: a routine returns [Ok v] or [Raise e]
      together with the state it leaves behind. *)

From Stdlib Require Import ZArith Floats Lia.
From stdpp Require Import base option list list_numbers gmap strings pretty.

Local Open Scope Z_scope.

(** ** Exceptions and results *)

Inductive Call :=
  | PILConvert            (* image.convert('RGB') *)
  | CreateDC              (* win32ui.CreateDC() *)
  | CreatePrinterDC       (* dc.CreatePrinterDC(printer_name) *)
  | StartDoc
  | StartPage
  | GetDeviceCaps (index : Z)
  | PILDib                (* ImageWin.Dib(image) *)
  | GetHandleOutput
  | Draw (rect : Z * Z * Z * Z)   (* dib.draw(handle, rect) *)
  | EndPage
  | EndDoc
  | DeleteDC
  | AbortDoc.

Inductive Exn :=
  | CallError (c : Call)        (* the call [c] raised *)
  | AttributeError              (* method call on [None] *)
  | ZeroDivisionError
  | FloatToIntError             (* int() of an infinity or a NaN *)
  | TypeError (msg : string)
  | FileNotFoundError.

Inductive Result (A : Type) :=
  | Ok (a : A)
  | Raise (e : Exn).
Arguments Ok {A} a.
Arguments Raise {A} e.

Definition is_ok {A} (r : Result A) : bool :=
  match r with Ok _ => true | Raise _ => false end.

(** ** Images *)

Record Image := mkImage {
  mode : string;
  size : Z * Z        (* (width, height) *)
}.

Definition convert_rgb (image : Image) : Image :=
  {| mode := "RGB"; size := size image |}.

(** ** Float arithmetic of the scaling step *)

(** [float(z)]: the nearest binary64 number. *)
Definition float_of_int (z : Z) : float :=
  SF2Prim (binary_normalize FloatOps.prec FloatOps.emax z 0 false).

(** [int(f)]: truncation toward zero; raises on infinities and NaN. *)
Definition int_of_float (f : float) : Result Z :=
  match Prim2SF f with
  | S754_zero _ => Ok 0
  | S754_finite s m e =>
      let a := match e with
               | Z0 => Zpos m
               | Zpos p => Z.shiftl (Zpos m) (Zpos p)
               | Zneg p => Z.shiftr (Zpos m) (Zpos p)
               end in
      Ok (if s then - a else a)
  | S754_infinity _ | S754_nan => Raise FloatToIntError
  end.

(** [a / b] on integers: true division. *)
Definition true_div (a b : Z) : Result float :=
  if b =? 0 then Raise ZeroDivisionError
  else Ok (PrimFloat.div (float_of_int a) (float_of_int b)).

(** [min(a, b)]: [b] is taken only when [b < a]. *)
Definition py_min (a b : float) : float :=
  if PrimFloat.ltb b a then b else a.

(** [int(n * scale)] for an integer [n]. *)
Definition scale_int (n : Z) (scale : float) : Result Z :=
  int_of_float (PrimFloat.mul (float_of_int n) scale).

(** Lines 188-198 and the tuple of line 204: the rectangle handed to
    [dib.draw]. *)
Definition draw_rect (printer_width printer_height : Z) (image : Image)
  : Result (Z * Z * Z * Z) :=
  let '(img_width, img_height) := size image in
  match true_div printer_width img_width with
  | Raise e => Raise e
  | Ok sw =>
    match true_div printer_height img_height with
    | Raise e => Raise e
    | Ok sh =>
      let scale := py_min sw sh in
      match scale_int img_width scale with
      | Raise e => Raise e
      | Ok new_width =>
        match scale_int img_height scale with
        | Raise e => Raise e
        | Ok new_height =>
          let x := (printer_width - new_width) `div` 2 in
          let y := (printer_height - new_height) `div` 2 in
          Ok (x, y, x + new_width, y + new_height)
        end
      end
    end
  end.

(** The float computation is evaluated on concrete sizes only. *)
Global Arguments draw_rect : simpl never.

(** ** The environment: printer device and fallible library calls *)

Record Event := mkEvent {
  ev_call : Call;
  ev_ok : bool          (* [false]: the call raised *)
}.

(** win32con constants. *)
Definition HORZRES : Z := 8.
Definition VERTRES : Z := 10.

Record Env := mkEnv {
  (** does the next call succeed, given the calls issued so far? *)
  accepts : list Event → Call → bool;
  (** value returned by [GetDeviceCaps(index)] when it succeeds *)
  device_caps : Z → Z
}.

(** ** The printer object *)

Inductive DC := PyCDC.

Record Printer := mkPrinter {
  converted : Z;
  printed : Z;
  total : Z;
  printer_dc : option DC;
  trace : list Event        (* ghost: every call issued, oldest first *)
}.

Definition set_converted (v : Z) (s : Printer) : Printer :=
  {| converted := v; printed := printed s; total := total s;
     printer_dc := printer_dc s; trace := trace s |}.
Definition set_printed (v : Z) (s : Printer) : Printer :=
  {| converted := converted s; printed := v; total := total s;
     printer_dc := printer_dc s; trace := trace s |}.
Definition set_total (v : Z) (s : Printer) : Printer :=
  {| converted := converted s; printed := printed s; total := v;
     printer_dc := printer_dc s; trace := trace s |}.
Definition set_printer_dc (v : option DC) (s : Printer) : Printer :=
  {| converted := converted s; printed := printed s; total := total s;
     printer_dc := v; trace := trace s |}.
Definition set_trace (v : list Event) (s : Printer) : Printer :=
  {| converted := converted s; printed := printed s; total := total s;
     printer_dc := printer_dc s; trace := v |}.

(** Lines 84-90 of [__init__]. *)
Definition new_printer : Printer :=
  {| converted := 0; printed := 0; total := 0;
     printer_dc := None; trace := [] |}.

(** ** A state and exception monad over the printer object *)

Definition M (A : Type) : Type := Printer → Result A * Printer.

Definition ret {A} (a : A) : M A := λ s, (Ok a, s).
Definition raise {A} (e : Exn) : M A := λ s, (Raise e, s).
Definition bind {A B} (m : M A) (k : A → M B) : M B :=
  λ s, match m s with
       | (Ok a, s') => k a s'
       | (Raise e, s') => (Raise e, s')
       end.
(** [try: body except Exception as e: handler e] *)
Definition try_except {A} (body : M A) (handler : Exn → M A) : M A :=
  λ s, match body s with
       | (Ok a, s') => (Ok a, s')
       | (Raise e, s') => handler e s'
       end.
Definition get_dc : M (option DC) := λ s, (Ok (printer_dc s), s).
Definition put_dc (v : option DC) : M unit := λ s, (Ok tt, set_printer_dc v s).
Definition get_total : M Z := λ s, (Ok (total s), s).
Definition lift {A} (r : Result A) : M A := λ s, (r, s).

Global Instance M_ret : MRet M := @ret.
Global Instance M_bind : MBind M := λ A B k m, bind m k.

Section Emitter.
Variable env : Env.

(** Issue one fallible call: log it and raise when the environment
    refuses it. *)
Definition call (c : Call) : M unit :=
  λ s, let ok := accepts env (trace s) c in
       let s' := set_trace (trace s ++ [mkEvent c ok]) s in
       (if ok then Ok tt else Raise (CallError c), s').

(** [self.printer_dc.method(...)]: an [AttributeError] when the
    attribute holds [None]. *)
Definition dc_call (c : Call) : M unit :=
  dc ← get_dc;
  match dc with
  | None => raise AttributeError
  | Some _ => call c
  end.

(** Lines 218-224: the inner [try] of the error handler. *)
Definition cleanup : M unit :=
  try_except
    (dc ← get_dc;
     match dc with
     | Some _ => dc_call AbortDoc ;; dc_call DeleteDC ;; put_dc None
     | None => ret tt
     end)
    (λ _, ret tt).

(** Lines 181-213: the body of the outer [try]. *)
Definition page_body (image : Image) (page_num : Z) : M unit :=
  dc_call StartPage ;;
  dc_call (GetDeviceCaps HORZRES) ;;
  dc_call (GetDeviceCaps VERTRES) ;;
  rect ← lift (draw_rect (device_caps env HORZRES)
                          (device_caps env VERTRES) image);
  call PILDib ;;
  dc_call GetHandleOutput ;;
  call (Draw rect) ;;
  dc_call EndPage ;;
  tot ← get_total;
  if page_num =? tot
  then dc_call EndDoc ;; dc_call DeleteDC ;; put_dc None
  else ret tt.

(** Lines 175-178: create the device context for the first page. *)
Definition open_job : M unit :=
  call CreateDC ;;
  put_dc (Some PyCDC) ;;
  dc_call CreatePrinterDC ;;
  dc_call StartDoc.

(** [_print_image_working(image, page_num)], lines 166-225. *)
Definition print_image_working (image : Image) (page_num : Z) : M unit :=
  image ← (if bool_decide (mode image = "RGB") then ret image
           else call PILConvert ;; ret (convert_rgb image));
  (if page_num =? 1 then open_job else ret tt) ;;
  try_except (page_body image page_num)
             (λ e, cleanup ;; raise e).

(** Lines 276-283 of [print_pdf]: make sure the job is closed. *)
Definition final_close : M unit :=
  dc ← get_dc;
  match dc with
  | Some _ =>
      try_except (dc_call EndDoc ;; dc_call DeleteDC) (λ _, ret tt) ;;
      put_dc None
  | None => ret tt
  end.
End Emitter.

(** ** The conversion worker *)

(** One job of [convert_worker] (lines 105-129): [convert_from_path] may
    raise or return a list of images; only a non-empty list puts an item
    on [image_queue] and counts as converted.  A failure is printed and
    produces nothing. *)
Definition convert_job (convert_from_path : Z → Result (list Image))
    (page_num : Z) : option (Z * Image) :=
  match convert_from_path page_num with
  | Ok (image :: _) => Some (page_num, image)
  | Ok [] => None
  | Raise _ => None
  end.

(** ** The print worker: reorder buffer and emission *)

Record Worker := mkWorker {
  next_page : Z;
  buffer : gmap Z Image;
  (** ghost: the calls [_print_image_working(img, page)] made so far *)
  handed : list (Z * Image)
}.

(** Lines 133-134. *)
Definition new_worker : Worker :=
  {| next_page := 1; buffer := ∅; handed := [] |}.

Section PrintWorker.
Variable env : Env.

(** Lines 147-160: the emission call, its statistics and the handler
    that swallows every exception. *)
Definition emit_page (img : Image) (page : Z) (s : Printer) : Printer :=
  match print_image_working env img page s with
  | (Ok _, s') => set_printed (printed s' + 1) s'
  | (Raise _, s') => s'
  end.

(** Lines 144-162: [while next_page in buffer].  Every iteration pops
    one key, so [size buffer] iterations are enough: see
    [drain_exits]. *)
Fixpoint drain (fuel : nat) (w : Worker) (s : Printer) : Worker * Printer :=
  match fuel with
  | O => (w, s)
  | S fuel' =>
      match buffer w !! next_page w with
      | None => (w, s)
      | Some img =>
          let s' := emit_page img (next_page w) s in
          drain fuel'
            {| next_page := next_page w + 1;
               buffer := delete (next_page w) (buffer w);
               handed := handed w ++ [(next_page w, img)] |}
            s'
      end
  end.

(** Lines 142-164: one item taken from [image_queue]. *)
Definition accept (ws : Worker * Printer) (item : Z * Image)
  : Worker * Printer :=
  let w := {| next_page := next_page ws.1;
              buffer := <[item.1 := item.2]> (buffer ws.1);
              handed := handed ws.1 |} in
  drain (base.size (buffer w)) w ws.2.

(** [print_worker] on the items it takes from the queue, in the order
    it takes them. *)
Definition print_worker (arrivals : list (Z * Image)) (s : Printer)
  : Worker * Printer :=
  foldl accept (new_worker, s) arrivals.
End PrintWorker.

(** ** The job driver *)

(** What the collaborators answer for one document. *)
Record Document := mkDocument {
  path_exists : bool;                       (* os.path.exists(pdf_path) *)
  pdfinfo_pages : Result Z;                 (* pdfinfo_from_path(...)['Pages'] *)
  convert_from_path : Z → Result (list Image)
}.

Inductive Outcome :=
  | Raised (e : Exn)
  | ReturnedEarly                (* "ERROR getting page count", line 245 *)
  | Completed (printed_pages total_pages : Z).   (* the COMPLETED report *)

(** Page numbers [1 .. total], as [range(1, self.total + 1)]. *)
Definition pages (n : Z) : list Z := seqZ 1 n.

(** The items reaching the print worker when the pages finish in the
    order [schedule]. *)
Definition arrivals_of (doc : Document) (schedule : list Z)
  : list (Z * Image) :=
  omap (convert_job (convert_from_path doc)) schedule.

(** [print_pdf] (lines 227-291) for a given completion order of the
    queued pages.  The two [join]s make the closing block run after the
    print worker has handled every queued item. *)
Definition print_pdf (env : Env) (doc : Document) (schedule : list Z)
    (s : Printer) : Outcome * Worker * Printer :=
  if negb (path_exists doc) then (Raised FileNotFoundError, new_worker, s)
  else match pdfinfo_pages doc with
  | Raise _ => (ReturnedEarly, new_worker, s)
  | Ok n =>
      let s := set_printer_dc None
                 (set_printed 0 (set_converted 0 (set_total n s))) in
      let items := arrivals_of doc schedule in
      let s := set_converted (Z.of_nat (length items)) s in
      let '(w, s) := print_worker env items s in
      let s := (final_close env s).2 in
      (* line 290 divides by [self.total] after the report is printed *)
      if total s =? 0 then (Raised ZeroDivisionError, w, s)
      else (Completed (printed s) (total s), w, s)
  end.

(** A schedule is admissible when every queued page finishes once. *)
Definition admissible (doc : Document) (schedule : list Z) : Prop :=
  match pdfinfo_pages doc with
  | Ok n => schedule ≡ₚ pages n
  | Raise _ => True
  end.

(** ** The HTTP front end (print_server.py) *)

Module PrintServer.

(** JSON values of a request body, as far as the handlers look at them. *)
Inductive Value :=
  | VNone
  | VBool (b : bool)
  | VInt (z : Z)
  | VStr (s : string).

Global Instance Value_eq_dec : EqDecision Value.
Proof. solve_decision. Defined.

Definition truthy (v : Value) : bool :=
  match v with
  | VNone => false
  | VBool b => b
  | VInt z => negb (z =? 0)
  | VStr s => negb (bool_decide (s = ""))
  end.

(** The machine the server runs on. *)
Record Host := mkHost {
  os_path_exists : Value → bool;
  GetDefaultPrinter : Result string;     (* win32print.GetDefaultPrinter() *)
  device : Env;
  document : Value → Document;           (* what [file_path] points to *)
  schedule : list Z                      (* completion order of its pages *)
}.

(** Keyword parameters of [WorkingPDFPrinter.__init__] (line 69). *)
Definition init_params : list string := ["printer_name"; "dpi"; "threads"].

(** Binding of a keyword-only call: a keyword that names no parameter
    raises [TypeError] before the body runs. *)
Definition bind_keywords (params : list string)
    (kwargs : list (string * Value)) : Result (gmap string Value) :=
  match List.find (λ kv, negb (bool_decide (kv.1 ∈ params))) kwargs with
  | Some kv => Raise (TypeError ("unexpected keyword argument " +:+ kv.1))
  | None => Ok (list_to_map kwargs)
  end.

Record Config := mkConfig {
  printer_name : Value;
  dpi : Value;
  threads : Value
}.

(** The constructor call with keyword arguments: binding, then lines
    70-90. *)
Definition WorkingPDFPrinter (host : Host) (kwargs : list (string * Value))
  : Result (Config * Printer) :=
  match bind_keywords init_params kwargs with
  | Raise e => Raise e
  | Ok args =>
      let name := default VNone (args !! "printer_name") in
      let cfg n := {| printer_name := n;
                      dpi := default (VInt 300) (args !! "dpi");
                      threads := default (VInt 4) (args !! "threads") |} in
      if truthy name then Ok (cfg name, new_printer)
      else match GetDefaultPrinter host with
           | Ok n => Ok (cfg (VStr n), new_printer)
           | Raise e => Raise e
           end
  end.

(** [pdf_printer.print_pdf(file_path)] on the object just built. *)
Definition run_print_pdf (host : Host) (file_path : Value) (s : Printer)
  : Outcome * Worker * Printer :=
  print_pdf (device host) (document host file_path) (schedule host) s.

Record Response := mkResponse {
  status : Z;
  success : bool
}.

(** What a handler did besides answering. *)
Inductive Step :=
  | Constructed (cfg : Config)
  | Printing (run : Outcome * Worker * Printer).

(** [POST /print] (lines 51-120). *)
Definition print_pdf (host : Host) (data : option (gmap string Value))
  : Response * list Step :=
  match data with
  | None => (mkResponse 400 false, [])
  | Some d =>
    if bool_decide (d = ∅) then (mkResponse 400 false, [])
    else match d !! "file_path" with
    | None => (mkResponse 400 false, [])
    | Some file_path =>
      if negb (os_path_exists host file_path)
      then (mkResponse 404 false, [])
      else
        let dpi := default (VInt 300) (d !! "dpi") in
        let threads := default (VInt 4) (d !! "threads") in
        let printer := default VNone (d !! "printer") in
        let margin_mm := default (VInt 0) (d !! "margin_mm") in
        match WorkingPDFPrinter host
                [("printer_name", printer); ("dpi", dpi);
                 ("threads", threads); ("margin_mm", margin_mm)] with
        | Raise _ => (mkResponse 500 false, [])
        | Ok (cfg, s) =>
            let run := run_print_pdf host file_path s in
            match run.1.1 with
            | Raised _ => (mkResponse 500 false, [Constructed cfg; Printing run])
            | _ => (mkResponse 200 true, [Constructed cfg; Printing run])
            end
        end
    end
  end.

Inductive JobStatus :=
  | completed
  | failed (e : Exn).

(** The closure [print_worker] of [POST /print-async] (lines 162-182). *)
Definition async_job (host : Host) (printer dpi threads file_path : Value)
  : JobStatus * list Step :=
  match WorkingPDFPrinter host
          [("printer_name", printer); ("dpi", dpi); ("threads", threads)] with
  | Raise e => (failed e, [])
  | Ok (cfg, s) =>
      let run := run_print_pdf host file_path s in
      match run.1.1 with
      | Raised e => (failed e, [Constructed cfg; Printing run])
      | _ => (completed, [Constructed cfg; Printing run])
      end
  end.

(** [POST /print-async] (lines 123-197): the answer, and the job the
    background thread runs when one is started. *)
Definition print_pdf_async (host : Host) (data : option (gmap string Value))
  : Response * option (JobStatus * list Step) :=
  match data with
  | None => (mkResponse 400 false, None)
  | Some d =>
    if bool_decide (d = ∅) then (mkResponse 400 false, None)
    else match d !! "file_path" with
    | None => (mkResponse 400 false, None)
    | Some file_path =>
      if negb (os_path_exists host file_path)
      then (mkResponse 404 false, None)
      else
        let dpi := default (VInt 300) (d !! "dpi") in
        let threads := default (VInt 4) (d !! "threads") in
        let printer := default VNone (d !! "printer") in
        (mkResponse 200 true,
         Some (async_job host printer dpi threads file_path))
    end
  end.

End PrintServer.

(** ** Sample environments and documents *)

Global Instance Call_eq_dec : EqDecision Call.
Proof. solve_decision. Defined.

(** A device that accepts every call. *)
Definition accepting (width height : Z) : Env :=
  {| accepts := λ _ _, true;
     device_caps := λ index, if index =? HORZRES then width else height |}.

(** A device that refuses the calls in [refused] and accepts the others. *)
Definition refusing (refused : list Call) (width height : Z) : Env :=
  {| accepts := λ _ c, negb (bool_decide (c ∈ refused));
     device_caps := λ index, if index =? HORZRES then width else height |}.

(** An A4 page rendered at 300 dpi, and a 600 dpi A4 surface. *)
Definition a4_page : Image := {| mode := "RGB"; size := (2480, 3508) |}.
Definition a4_600dpi : Env := accepting 4961 7016.

(** A document of [n] pages in which the pages of [bad] fail to convert. *)
Definition document_failing (n : Z) (bad : list Z) : Document :=
  {| path_exists := true;
     pdfinfo_pages := Ok n;
     convert_from_path := λ p,
       if bool_decide (p ∈ bad) then Raise (CallError PILConvert)
       else Ok [a4_page] |}.

(** A sample host and request body for the HTTP handlers. *)
Definition sample_host : PrintServer.Host :=
  {| PrintServer.os_path_exists :=
       λ v, bool_decide (v = PrintServer.VStr "C:/docs/report.pdf");
     PrintServer.GetDefaultPrinter := Ok "Office";
     PrintServer.device := a4_600dpi;
     PrintServer.document := λ _, document_failing 2 [];
     PrintServer.schedule := [2; 1] |}.

Definition sample_body : gmap string PrintServer.Value :=
  {[ "file_path" := PrintServer.VStr "C:/docs/report.pdf";
     "dpi" := PrintServer.VInt 150 ]}.

(** ** Specification predicates *)

(** What the buffer and the counter say about the pages [seen] so far. *)
Record tracks (seen : Z → Prop) (w : Worker) : Prop := mkTracks {
  tracks_start : 1 ≤ next_page w;
  tracks_handed : (handed w).*1 = seqZ 1 (next_page w - 1);
  tracks_buffer : ∀ p, is_Some (buffer w !! p) → seen p;
  tracks_ahead : ∀ p, seen p → next_page w ≤ p → is_Some (buffer w !! p);
  tracks_behind : ∀ p, 1 ≤ p < next_page w → seen p
}.

(** Every buffered page number is at or after [next_page]. *)
Definition pending_ahead (w : Worker) : Prop :=
  ∀ p, is_Some (buffer w !! p) → next_page w ≤ p.

(** The calls that bracket a job and its pages, and the drawing call. *)
Definition job_marker (c : Call) : bool :=
  match c with
  | StartDoc | StartPage | Draw _ | EndPage | EndDoc | AbortDoc => true
  | _ => false
  end.

(** What the device sees of the job structure, oldest call first. *)
Definition job_markers (s : Printer) : list Call :=
  List.filter job_marker (ev_call <$> trace s).

(** The items of [handed], emitted one after the other. *)
Definition emit_all (env : Env) (items : list (Z * Image)) (s : Printer)
  : Printer :=
  foldl (λ s item, emit_page env item.2 item.1 s) s items.

(** Exceptions raised from inside the [try] of [_print_image_working]:
    everything but a failure of the conversion to RGB or of one of the
    three opening calls, which precede it. *)
Definition in_bracket (e : Exn) : bool :=
  match e with
  | CallError (PILConvert | CreateDC | CreatePrinterDC | StartDoc) => false
  | _ => true
  end.

(** Device contexts created, and end-of-job calls received. *)
Definition is_open (e : Event) : bool :=
  match ev_call e with CreateDC => ev_ok e | _ => false end.
Definition is_close (e : Event) : bool :=
  match ev_call e with EndDoc | AbortDoc => true | _ => false end.
Definition opens (tr : list Event) : nat := length (List.filter is_open tr).
Definition closes (tr : list Event) : nat := length (List.filter is_close tr).

(** A device on which closing a job never fails. *)
Definition reliable_close (env : Env) : Prop :=
  ∀ tr c, c ∈ [EndDoc; DeleteDC; AbortDoc] → accepts env tr c = true.

(** [wp m s Q]: running [m] from state [s] ends in a result and a state
    that satisfy [Q]. *)
Definition wp {A} (m : M A) (s : Printer) (Q : Result A → Printer → Prop)
  : Prop :=
  Q (m s).1 (m s).2.

(** What the handler of lines 215-225 leaves behind: the context aborted
    and deleted, or the first cleanup call that failed. *)
Definition cleaned_up (s' : Printer) : Prop :=
  (printer_dc s' = None ∧
   [mkEvent AbortDoc true; mkEvent DeleteDC true] `suffix_of` trace s') ∨
  (is_Some (printer_dc s') ∧
   [mkEvent AbortDoc true; mkEvent DeleteDC false] `suffix_of` trace s') ∨
  (is_Some (printer_dc s') ∧ [mkEvent AbortDoc false] `suffix_of` trace s').

(** Every context created has received one end-of-job call, except the
    one the printer object still holds. *)
Definition held (s : Printer) : nat :=
  match printer_dc s with Some _ => 1%nat | None => 0%nat end.
Definition balanced (s : Printer) : Prop :=
  opens (trace s) = (closes (trace s) + held s)%nat.

(** Pages drawn, and jobs started, in a call log. *)
Definition is_draw (e : Event) : bool :=
  match ev_call e with Draw _ => true | _ => false end.
Definition is_started (e : Event) : bool :=
  match ev_call e with StartDoc => ev_ok e | _ => false end.
Definition draws (tr : list Event) : nat := length (List.filter is_draw tr).
Definition starts (tr : list Event) : nat :=
  length (List.filter is_started tr).

(** The device context cannot be created: [CreateDC] or
    [CreatePrinterDC] always fails. *)
Definition cannot_open (env : Env) : Prop :=
  (∀ tr, accepts env tr CreateDC = false) ∨
  (∀ tr, accepts env tr CreatePrinterDC = false).

(** A device refuses to start a page as long as no job was started. *)
Definition page_needs_job (env : Env) : Prop :=
  ∀ tr, starts tr = 0%nat → accepts env tr StartPage = false.

(** Nothing started, nothing drawn, nothing counted as printed. *)
Definition idle (t : Z) (s : Printer) : Prop :=
  starts (trace s) = 0%nat ∧ draws (trace s) = 0%nat ∧
  printed s = 0 ∧ total s = t.

(** A device on which the printer name is unknown: [CreatePrinterDC]
    always fails, and a page can only start inside a started job. *)
Definition no_such_printer (width height : Z) : Env :=
  {| accepts := λ tr c,
       match c with
       | CreatePrinterDC => false
       | StartPage => negb (Nat.eqb (starts tr) 0)
       | _ => true
       end;
     device_caps := λ index, if index =? HORZRES then width else height |}.

(** ** Where the items of a job end up *)

(** Every item the worker handed over or still buffers is one of the
    items [seen] so far. *)
Definition from_arrivals (seen : list (Z * Image)) (w : Worker) : Prop :=
  (∀ item, item ∈ handed w → item ∈ seen) ∧
  (∀ p img, buffer w !! p = Some img → (p, img) ∈ seen).

(** The printer object when the print worker of a job starts: the state
    [print_pdf] has reset, with the conversions of the job counted. *)
Definition job_start (doc : Document) (schedule : list Z) (n : Z) : Printer :=
  set_converted (Z.of_nat (length (arrivals_of doc schedule)))
    (set_printer_dc None
       (set_printed 0 (set_converted 0 (set_total n new_printer)))).

(** ** A job that succeeds *)

(** A device and libraries on which no call fails. *)
Definition accepts_all (env : Env) : Prop :=
  ∀ tr c, accepts env tr c = true.

(** The job structure of [n] pages drawn at the rectangles [rect]. *)
Definition whole_job (rect : Z → Z * Z * Z * Z) (n : Z) : list Call :=
  StartDoc :: flat_map (λ p, [StartPage; Draw (rect p); EndPage]) (pages n)
    ++ [EndDoc].

(** ** Locating Ghostscript (pdf_printer.py, lines 17-42) *)

Module Ghostscript.

(** What the machine answers to the lookups of [find_ghostscript]. *)
Record Host := mkHost {
  os_path_exists : string → bool;
  os_listdir : string → Result (list string);
  (** [subprocess.run(["gswin64c", "--version"], ...)]: the return code,
      or the exception ([FileNotFoundError], the timeout, ...) *)
  run_version : Result Z
}.

Definition possible_paths : list string :=
  ["C:\Program Files\gs"; "C:\Program Files (x86)\gs"].

(** [os.path.join(base_path, item, "bin", exe)] on Windows, for a
    directory entry [item]: the components joined by backslashes. *)
Definition sep : string := String (Ascii.ascii_of_nat 92) EmptyString.
Definition gs_path (base_path item exe : string) : string :=
  base_path +:+ sep +:+ item +:+ sep +:+ "bin" +:+ sep +:+ exe.

(** Lines 26-32: the loop over the entries of one directory. *)
Fixpoint scan_items (host : Host) (base_path : string) (items : list string)
  : option string :=
  match items with
  | [] => None
  | item :: items =>
      if os_path_exists host (gs_path base_path item "gswin64c.exe")
      then Some (gs_path base_path item "gswin64c.exe")
      else if os_path_exists host (gs_path base_path item "gswin32c.exe")
      then Some (gs_path base_path item "gswin32c.exe")
      else scan_items host base_path items
  end.

(** Lines 24-32: the loop over [possible_paths].  [os.listdir] is not
    guarded: what it raises leaves the function. *)
Fixpoint scan_paths (host : Host) (paths : list string)
  : Result (option string) :=
  match paths with
  | [] => Ok None
  | base_path :: paths =>
      if os_path_exists host base_path then
        match os_listdir host base_path with
        | Raise e => Raise e
        | Ok items =>
            match scan_items host base_path items with
            | Some gs => Ok (Some gs)
            | None => scan_paths host paths
            end
        end
      else scan_paths host paths
  end.

(** [find_ghostscript()], lines 17-42. *)
Definition find_ghostscript (host : Host) : Result (option string) :=
  match scan_paths host possible_paths with
  | Raise e => Raise e
  | Ok (Some gs) => Ok (Some gs)
  | Ok None =>
      match run_version host with
      | Ok 0 => Ok (Some "gswin64c")
      | Ok _ => Ok None
      | Raise _ => Ok None
      end
  end.

(** The executables looked for, in order of preference. *)
Definition executables : list string := ["gswin64c.exe"; "gswin32c.exe"].

(** A sample machine: Ghostscript 10.02.1 installed as a 32-bit build
    under the second directory, the first directory absent. *)
Definition sample_host : Host :=
  {| os_path_exists := λ p,
       bool_decide (p ∈ ["C:\Program Files (x86)\gs";
                         "C:\Program Files (x86)\gs\gs10.02.1\bin\gswin32c.exe"]);
     os_listdir := λ p, Ok ["README.txt"; "gs10.02.1"];
     run_version := Raise FileNotFoundError |}.

(** A machine without Ghostscript. *)
Definition bare_host : Host :=
  {| os_path_exists := λ _, false;
     os_listdir := λ _, Raise FileNotFoundError;
     run_version := Raise FileNotFoundError |}.

End Ghostscript.

(** ** What the HTTP handlers answer *)

(** The value of the key [file_path] in a request body, when the body is
    a JSON object that has one. *)
Definition requested_file (data : option (gmap string PrintServer.Value))
  : option PrintServer.Value :=
  d ← data; d !! "file_path".



(** ** The job table of the print server (print_server.py) *)

Module JobStore.

(** The values of 'status'. *)
Inductive Phase := st_queued | st_printing | st_completed | st_failed.

(** One entry of [active_jobs]. *)
Record Job := mkJob {
  job_status : Phase;               (* 'status' *)
  job_file : PrintServer.Value;     (* 'file_path' *)
  started_at : float;               (* 'started_at' *)
  job_error : option Exn            (* 'error': the exception whose text is kept *)
}.

Definition set_status (ph : Phase) (j : Job) : Job :=
  {| job_status := ph; job_file := job_file j;
     started_at := started_at j; job_error := job_error j |}.
Definition set_error (e : Exn) (j : Job) : Job :=
  {| job_status := job_status j; job_file := job_file j;
     started_at := started_at j; job_error := Some e |}.

(** [int(time.time() * 1000)] for the clock reading [now]. *)
Definition millis (now : float) : Result Z :=
  int_of_float (PrimFloat.mul now (float_of_int 1000)).

(** Line 151: the job id, "job_" followed by the decimal digits. *)
Definition job_id (now : float) : Result string :=
  match millis now with
  | Ok ms => Ok ("job_" +:+ pretty ms)
  | Raise e => Raise e
  end.

(** Where a background thread stands: before its first locked block,
    between the two, after the second, or ended by an exception that
    left the closure. *)
Inductive Pc := Spawned | Running | Finished | Crashed.

(** A thread running the closure [print_worker] of lines 162-182, with
    the variables it has captured. *)
Record Thread := mkThread {
  thread_job : string;
  thread_printer : PrintServer.Value;
  thread_dpi : PrintServer.Value;
  thread_threads : PrintServer.Value;
  thread_file : PrintServer.Value;
  pc : Pc
}.

Definition set_pc (v : Pc) (th : Thread) : Thread :=
  {| thread_job := thread_job th; thread_printer := thread_printer th;
     thread_dpi := thread_dpi th; thread_threads := thread_threads th;
     thread_file := thread_file th; pc := v |}.

Record Server := mkServer {
  active_jobs : gmap string Job;
  threads : list Thread
}.

Definition new_server : Server := {| active_jobs := ∅; threads := [] |}.

(** [POST /print-async] (lines 123-197) with the job table: the
    response, the job id of its body, and the server afterwards.  [now]
    and [started] are the two readings of the clock. *)
Definition print_pdf_async (host : PrintServer.Host) (now started : float)
    (data : option (gmap string PrintServer.Value)) (srv : Server)
  : PrintServer.Response * option string * Server :=
  match data with
  | None => (PrintServer.mkResponse 400 false, None, srv)
  | Some d =>
    if bool_decide (d = ∅) then (PrintServer.mkResponse 400 false, None, srv)
    else match d !! "file_path" with
    | None => (PrintServer.mkResponse 400 false, None, srv)
    | Some file_path =>
      if negb (PrintServer.os_path_exists host file_path)
      then (PrintServer.mkResponse 404 false, None, srv)
      else
        let dpi := default (PrintServer.VInt 300) (d !! "dpi") in
        let threads_ := default (PrintServer.VInt 4) (d !! "threads") in
        let printer := default PrintServer.VNone (d !! "printer") in
        match job_id now with
        | Raise _ => (PrintServer.mkResponse 500 false, None, srv)
        | Ok id =>
            let job := {| job_status := st_queued; job_file := file_path;
                          started_at := started; job_error := None |} in
            let th := {| thread_job := id; thread_printer := printer;
                         thread_dpi := dpi; thread_threads := threads_;
                         thread_file := file_path; pc := Spawned |} in
            (PrintServer.mkResponse 200 true, Some id,
             {| active_jobs := <[id := job]> (active_jobs srv);
                threads := threads srv ++ [th] |})
        end
    end
  end.

(** [active_jobs[job_id][...] = ...]: the entry is looked up first, and
    a missing key raises [KeyError] ([None]). *)
Definition update_job (id : string) (f : Job → Job) (jobs : gmap string Job)
  : option (gmap string Job) :=
  match jobs !! id with
  | Some j => Some (<[id := f j]> jobs)
  | None => None
  end.

(** What the thread has to report after its work (lines 167-181 of
    print_server.py). *)
Definition report (st : PrintServer.JobStatus) (j : Job) : Job :=
  match st with
  | PrintServer.completed => set_status st_completed j
  | PrintServer.failed e => set_error e (set_status st_failed j)
  end.

(** One locked block of a thread, with the unlocked work that precedes
    it.  A [KeyError] is caught by line 178, whose handler looks the
    entry up again and so ends the thread. *)
Definition thread_step (host : PrintServer.Host) (th : Thread)
    (jobs : gmap string Job) : Thread * gmap string Job :=
  match pc th with
  | Spawned =>
      match update_job (thread_job th) (set_status st_printing) jobs with
      | Some jobs' => (set_pc Running th, jobs')
      | None => (set_pc Crashed th, jobs)
      end
  | Running =>
      let st := (PrintServer.async_job host (thread_printer th)
                   (thread_dpi th) (thread_threads th) (thread_file th)).1 in
      match update_job (thread_job th) (report st) jobs with
      | Some jobs' => (set_pc Finished th, jobs')
      | None => (set_pc Crashed th, jobs)
      end
  | Finished | Crashed => (th, jobs)
  end.

(** [GET /job/<job_id>] (lines 200-213). *)
Definition get_job_status (job_id : string) (srv : Server)
  : PrintServer.Response * option Job :=
  match active_jobs srv !! job_id with
  | None => (PrintServer.mkResponse 404 false, None)
  | Some j => (PrintServer.mkResponse 200 true, Some j)
  end.

(** What happens at the server: a request arrives, or the scheduler
    lets thread [i] run up to the end of its next locked block. *)
Inductive Action :=
  | Post (now started : float) (data : option (gmap string PrintServer.Value))
  | Resume (i : nat).

Definition Answer : Type := PrintServer.Response * option string.

Definition step (host : PrintServer.Host) (sa : Server * list Answer)
    (a : Action) : Server * list Answer :=
  match a with
  | Post now started data =>
      let r := print_pdf_async host now started data sa.1 in
      (r.2, sa.2 ++ [r.1])
  | Resume i =>
      match threads sa.1 !! i with
      | Some th =>
          let r := thread_step host th (active_jobs sa.1) in
          ({| active_jobs := r.2; threads := <[i := r.1]> (threads sa.1) |},
           sa.2)
      | None => sa
      end
  end.

Definition run (host : PrintServer.Host) (actions : list Action)
  : Server * list Answer :=
  foldl (step host) (new_server, []) actions.


(** What every reachable state of the server satisfies: no thread has
    been ended by an exception, every thread has the entry of its job,
    and so has every job id handed out. *)
Definition table_ok (sa : Server * list Answer) : Prop :=
  (∀ th, th ∈ threads sa.1 →
         pc th ≠ Crashed ∧ is_Some (active_jobs sa.1 !! thread_job th)) ∧
  (∀ resp id, (resp, Some id) ∈ sa.2 → is_Some (active_jobs sa.1 !! id)).


End JobStore.


(** ** The control panel (control_panel.py) *)

Module ControlPanel.

Inductive ButtonState := NORMAL | DISABLED.
Inductive StatusText := Stopped | Starting | Running | Error.
Inductive Child := print_server | whatsapp_bot.

(** The panel object, the window, and the children it has started.  A
    process handle is the number of the [Popen] call that returned it. *)
Record Panel := mkPanel {
  is_running : bool;
  print_server_process : option nat;
  whatsapp_bot_process : option nat;
  start_button : ButtonState;
  stop_button : ButtonState;
  status_label : StatusText;
  window_open : bool;            (* until [root.destroy()] *)
  starting : nat;                (* start threads launched that have not run *)
  spawned : nat;                 (* ghost: [Popen] calls that returned *)
  alive : list (nat * Child)     (* ghost: children found running and not
                                    stopped by the panel since *)
}.

(** Lines 19-41 and 43-133: the panel as [main] shows it. *)
Definition new_panel : Panel :=
  {| is_running := false;
     print_server_process := None; whatsapp_bot_process := None;
     start_button := NORMAL; stop_button := DISABLED;
     status_label := Stopped; window_open := true;
     starting := 0; spawned := 0; alive := [] |}.

(** What the machine answers during one run of the start thread. *)
Record Startup := mkStartup {
  python_found : bool;       (* [python --version] ran *)
  npm_found : bool;          (* [npm --version] ran *)
  dist_exists : bool;        (* mvp/dist exists *)
  server_created : bool;     (* [Popen(print_server_cmd)] returned *)
  server_up : bool;          (* its [poll()] is [None] after 2 s *)
  bot_created : bool;        (* [Popen(bot_cmd)] returned *)
  bot_up : bool              (* its [poll()] is [None] after 3 s *)
}.

(** How stopping one child goes: [terminate] and [wait] succeed, or
    whatever they raise is caught and [kill] succeeds, or [kill] raises
    too. *)
Inductive Stopping := stopped_in_time | had_to_kill | kill_raised.

Record Shutdown := mkShutdown {
  server_stop : Stopping;
  bot_stop : Stopping
}.

(** Lines 274-278: the handler of the start thread. *)
Definition show_error (p : Panel) : Panel :=
  {| is_running := is_running p;
     print_server_process := print_server_process p;
     whatsapp_bot_process := whatsapp_bot_process p;
     start_button := NORMAL; stop_button := DISABLED;
     status_label := Error; window_open := window_open p;
     starting := starting p; spawned := spawned p; alive := alive p |}.

(** Lines 212-221 and 239-248: a [Popen] that returns, with the handle
    stored in the panel. *)
Definition spawn (c : Child) (up : bool) (p : Panel) : Panel :=
  let h := spawned p in
  {| is_running := is_running p;
     print_server_process :=
       match c with
       | print_server => Some h
       | whatsapp_bot => print_server_process p
       end;
     whatsapp_bot_process :=
       match c with
       | print_server => whatsapp_bot_process p
       | whatsapp_bot => Some h
       end;
     start_button := start_button p; stop_button := stop_button p;
     status_label := status_label p; window_open := window_open p;
     starting := starting p; spawned := S h;
     alive := if up then alive p ++ [(h, c)] else alive p |}.

(** Lines 259-260. *)
Definition show_running (p : Panel) : Panel :=
  {| is_running := true;
     print_server_process := print_server_process p;
     whatsapp_bot_process := whatsapp_bot_process p;
     start_button := start_button p; stop_button := stop_button p;
     status_label := Running; window_open := window_open p;
     starting := starting p; spawned := spawned p; alive := alive p |}.

(** [_start_servers_thread] (lines 176-278).  The two [return]s leave
    the panel as [start_servers] has set it. *)
Definition start_servers_thread (e : Startup) (p : Panel) : Panel :=
  if negb (python_found e) then show_error p
  else if negb (npm_found e) then show_error p
  else if negb (dist_exists e) then show_error p
  else if negb (server_created e) then show_error p
  else
    let p := spawn print_server (server_up e) p in
    if negb (server_up e) then p
    else if negb (bot_created e) then show_error p
    else
      let p := spawn whatsapp_bot (bot_up e) p in
      if negb (bot_up e) then p
      else show_running p.

(** [start_servers] (lines 158-174). *)
Definition start_servers (p : Panel) : Panel :=
  if is_running p then p
  else
    {| is_running := is_running p;
       print_server_process := print_server_process p;
       whatsapp_bot_process := whatsapp_bot_process p;
       start_button := DISABLED; stop_button := NORMAL;
       status_label := Starting; window_open := window_open p;
       starting := S (starting p); spawned := spawned p;
       alive := alive p |}.

Definition forget (h : nat) (children : list (nat * Child))
  : list (nat * Child) :=
  List.filter (λ hc, negb (Nat.eqb hc.1 h)) children.

(** Lines 312-321 and 324-333: stop one child and drop its handle;
    [None] when [kill] raises, which leaves [stop_servers]. *)
Definition stop_child (c : Child) (how : Stopping) (p : Panel)
  : option Panel :=
  match (match c with
         | print_server => print_server_process p
         | whatsapp_bot => whatsapp_bot_process p
         end) with
  | None => Some p
  | Some h =>
      match how with
      | kill_raised => None
      | stopped_in_time | had_to_kill =>
          Some {| is_running := is_running p;
                  print_server_process :=
                    match c with
                    | print_server => None
                    | whatsapp_bot => print_server_process p
                    end;
                  whatsapp_bot_process :=
                    match c with
                    | print_server => whatsapp_bot_process p
                    | whatsapp_bot => None
                    end;
                  start_button := start_button p;
                  stop_button := stop_button p;
                  status_label := status_label p;
                  window_open := window_open p;
                  starting := starting p; spawned := spawned p;
                  alive := forget h (alive p) |}
      end
  end.

(** Lines 335-338. *)
Definition show_stopped (p : Panel) : Panel :=
  {| is_running := false;
     print_server_process := print_server_process p;
     whatsapp_bot_process := whatsapp_bot_process p;
     start_button := NORMAL; stop_button := DISABLED;
     status_label := Stopped; window_open := window_open p;
     starting := starting p; spawned := spawned p; alive := alive p |}.

(** [stop_servers] (lines 300-344): the panel afterwards, and whether
    the method returned ([false]: an exception left it). *)
Definition stop_servers (e : Shutdown) (p : Panel) : Panel * bool :=
  if negb (is_running p) then (p, true)
  else
    match stop_child print_server (server_stop e) p with
    | None => (p, false)
    | Some p1 =>
        match stop_child whatsapp_bot (bot_stop e) p1 with
        | None => (p1, false)
        | Some p2 => (show_stopped p2, true)
        end
    end.

Definition destroy (p : Panel) : Panel :=
  {| is_running := is_running p;
     print_server_process := print_server_process p;
     whatsapp_bot_process := whatsapp_bot_process p;
     start_button := start_button p; stop_button := stop_button p;
     status_label := status_label p; window_open := false;
     starting := starting p; spawned := spawned p; alive := alive p |}.

(** [on_closing] (lines 346-352). *)
Definition on_closing (e : Shutdown) (p : Panel) : Panel :=
  if is_running p then
    match stop_servers e p with
    | (p', true) => destroy p'
    | (p', false) => p'
    end
  else destroy p.

(** What can happen at the panel.  A disabled button does not call its
    command; a start thread runs after the click that launched it, and
    is taken as one step: clicks are handled before it or after it; once
    the window is destroyed the program ends. *)
Inductive Action :=
  | ClickStart
  | ClickStop (e : Shutdown)
  | StartThread (e : Startup)
  | CloseWindow (e : Shutdown).

Definition launched (p : Panel) : Panel :=
  {| is_running := is_running p;
     print_server_process := print_server_process p;
     whatsapp_bot_process := whatsapp_bot_process p;
     start_button := start_button p; stop_button := stop_button p;
     status_label := status_label p; window_open := window_open p;
     starting := pred (starting p); spawned := spawned p;
     alive := alive p |}.

Definition step (p : Panel) (a : Action) : Panel :=
  if negb (window_open p) then p
  else
    match a with
    | ClickStart =>
        match start_button p with
        | NORMAL => start_servers p
        | DISABLED => p
        end
    | ClickStop e =>
        match stop_button p with
        | NORMAL => (stop_servers e p).1
        | DISABLED => p
        end
    | StartThread e =>
        match starting p with
        | O => p
        | S _ => start_servers_thread e (launched p)
        end
    | CloseWindow e => on_closing e p
    end.

Definition is_close (a : Action) : bool :=
  match a with CloseWindow _ => true | _ => false end.

(** A start in which the checks pass and the print server comes up. *)
Definition server_comes_up (e : Startup) : Prop :=
  python_found e = true ∧ npm_found e = true ∧ dist_exists e = true ∧
  server_created e = true ∧ server_up e = true.

(** A panel on which START can be clicked. *)
Definition startable (p : Panel) : Prop :=
  window_open p = true ∧ start_button p = NORMAL ∧
  is_running p = false ∧ starting p = 0%nat.

(** The handles of the children still alive are handles already given
    out. *)
Definition handles_known (p : Panel) : Prop :=
  ∀ h c, (h, c) ∈ alive p → (h < spawned p)%nat.

(** The child with handle [h] is a print server that is alive and that
    [stop_servers] cannot reach. *)
Definition orphan (h : nat) (p : Panel) : Prop :=
  (h, print_server) ∈ alive p ∧ (h < spawned p)%nat ∧
  (is_running p = true →
   print_server_process p ≠ Some h ∧ whatsapp_bot_process p ≠ Some h).

Definition all_up : Startup :=
  {| python_found := true; npm_found := true; dist_exists := true;
     server_created := true; server_up := true;
     bot_created := true; bot_up := true |}.
Definition bot_missing : Startup :=
  {| python_found := true; npm_found := true; dist_exists := true;
     server_created := true; server_up := true;
     bot_created := false; bot_up := false |}.
Definition bot_dies : Startup :=
  {| python_found := true; npm_found := true; dist_exists := true;
     server_created := true; server_up := true;
     bot_created := true; bot_up := false |}.
Definition clean_stop : Shutdown :=
  {| server_stop := stopped_in_time; bot_stop := had_to_kill |}.

End ControlPanel.

(** * Properties *)

(** ** The reorder buffer of [print_worker] *)

Section ReorderBuffer.
Variable env : Env.

Lemma tracks_new_worker : tracks (λ _, False) new_worker.
Proof.
  split; simpl; try done.
  - intros p [x Hx]. by rewrite lookup_empty in Hx.
  - intros p Hp. lia.
Qed.

Lemma tracks_weaken (seen seen' : Z → Prop) w :
  (∀ p, seen p ↔ seen' p) → tracks seen w → tracks seen' w.
Proof.
  intros Heq [H1 H2 H3 H4 H5]. split; auto.
  - intros p Hp. by apply Heq, H3.
  - intros p Hp. apply H4. by apply Heq.
  - intros p Hp. by apply Heq, H5.
Qed.

(** The loop leaves only when [next_page] is not in the buffer: the
    fuel never runs out first. *)
Lemma drain_exits fuel w s :
  (base.size (buffer w) ≤ fuel)%nat →
  buffer (drain env fuel w s).1 !! next_page (drain env fuel w s).1 = None.
Proof.
  revert w s. induction fuel as [|fuel IH]; intros w s Hsz; simpl.
  - assert (buffer w = ∅) as -> by (apply map_size_empty_inv; lia).
    apply lookup_empty.
  - destruct (buffer w !! next_page w) as [img|] eqn:Hnext; [|done].
    apply IH. simpl.
    pose proof (map_size_delete_Some (next_page w) (buffer w)) as Hd.
    rewrite Hd by (by rewrite Hnext). lia.
Qed.

Lemma drain_tracks seen fuel w s :
  tracks seen w → tracks seen (drain env fuel w s).1.
Proof.
  revert w s. induction fuel as [|fuel IH]; intros w s Hw; simpl; [done|].
  destruct (buffer w !! next_page w) as [img|] eqn:Hnext; [|done].
  apply IH. destruct Hw as [H1 H2 H3 H4 H5]. split; simpl.
  - lia.
  - rewrite fmap_app, H2. simpl.
    replace (next_page w + 1 - 1) with ((next_page w - 1) + 1) by lia.
    rewrite seqZ_app by lia. f_equal.
    rewrite seqZ_cons, seqZ_nil by lia. f_equal. lia.
  - intros p [x Hx]. apply H3.
    apply lookup_delete_Some in Hx as [_ Hx]. eauto.
  - intros p Hp Hle. destruct (H4 p Hp) as [x Hx]; [lia|].
    exists x. apply lookup_delete_Some. split; [lia|done].
  - intros p Hp. destruct (decide (p = next_page w)) as [->|Hne].
    + apply H3. eauto.
    + apply H5. lia.
Qed.

Lemma drain_next_page_mono fuel w s :
  next_page w ≤ next_page (drain env fuel w s).1.
Proof.
  revert w s. induction fuel as [|fuel IH]; intros w s; simpl; [lia|].
  destruct (buffer w !! next_page w) as [img|]; [|simpl; lia].
  etrans; [|apply IH]. simpl. lia.
Qed.

Lemma accept_tracks seen ws item :
  tracks seen ws.1 →
  tracks (λ p, p = item.1 ∨ seen p) (accept env ws item).1.
Proof.
  intros [H1 H2 H3 H4 H5]. unfold accept. apply drain_tracks.
  split; simpl; auto.
  - intros p [x Hx]. apply lookup_insert_Some in Hx as [[-> _]|[_ Hx]]; eauto.
  - intros p Hp Hle. destruct (decide (item.1 = p)) as [->|Hne].
    + rewrite lookup_insert_eq. eauto.
    + rewrite lookup_insert_ne by done. apply H4; [|done].
      destruct Hp; [congruence|done].
Qed.

Lemma accept_exits ws item :
  buffer (accept env ws item).1 !! next_page (accept env ws item).1 = None.
Proof. unfold accept. by apply drain_exits. Qed.

Lemma foldl_accept_tracks seen ws arrivals :
  tracks seen ws.1 →
  tracks (λ p, p ∈ arrivals.*1 ∨ seen p) (foldl (accept env) ws arrivals).1.
Proof.
  revert seen ws. induction arrivals as [|item arrivals IH]; intros seen ws Hws.
  - simpl. eapply tracks_weaken; [|done].
    intros p. rewrite elem_of_nil. tauto.
  - simpl. eapply tracks_weaken; [|apply IH, (accept_tracks seen ws item), Hws].
    intros p. simpl. rewrite elem_of_cons. tauto.
Qed.

Lemma foldl_accept_exits ws arrivals :
  buffer ws.1 !! next_page ws.1 = None →
  let ws' := foldl (accept env) ws arrivals in
  buffer ws'.1 !! next_page ws'.1 = None.
Proof.
  revert ws. induction arrivals as [|item arrivals IH]; intros ws Hws; [done|].
  simpl. apply IH, accept_exits.
Qed.

Lemma print_worker_tracks arrivals s :
  tracks (λ p, p ∈ arrivals.*1) (print_worker env arrivals s).1.
Proof.
  eapply tracks_weaken;
    [|apply (foldl_accept_tracks (λ _, False)), tracks_new_worker].
  intros p. simpl. tauto.
Qed.

Lemma print_worker_exits arrivals s :
  let ws := print_worker env arrivals s in
  buffer ws.1 !! next_page ws.1 = None.
Proof. apply foldl_accept_exits. apply lookup_empty. Qed.

(** [next_page] is the first page number, from 1 on, that has not
    arrived. *)
Lemma print_worker_next_page arrivals s :
  let w := (print_worker env arrivals s).1 in
  (next_page w ∉ arrivals.*1) ∧ (∀ p, 1 ≤ p < next_page w → p ∈ arrivals.*1).
Proof.
  simpl. destruct (print_worker_tracks arrivals s) as [H1 H2 H3 H4 H5].
  split; [|done]. intros Hin.
  pose proof (print_worker_exits arrivals s) as Hex. simpl in Hex.
  destruct (H4 _ Hin) as [x Hx]; [lia|]. congruence.
Qed.
End ReorderBuffer.

(** ** Emission order *)

Section EmissionOrder.
Variable env : Env.

(** C1. Whatever the order in which the converted pages 1..n reach the
    print worker, the page numbers handed to the emission routine are
    exactly 1, 2, ..., n, in that order. *)
Theorem print_worker_in_order (n : Z) (arrivals : list (Z * Image))
    (s : Printer) :
  arrivals.*1 ≡ₚ pages n →
  (handed (print_worker env arrivals s).1).*1 = pages n.
Proof.
  intros Hperm.
  destruct (print_worker_tracks env arrivals s) as [H1 H2 _ _ _].
  destruct (print_worker_next_page env arrivals s) as [Hout Hin].
  simpl in Hout, Hin. rewrite H2. unfold pages.
  set (np := next_page (print_worker env arrivals s).1) in *.
  assert (∀ p, p ∈ arrivals.*1 ↔ 1 ≤ p < 1 + n) as Hmem.
  { intros p. rewrite Hperm. apply elem_of_seqZ. }
  destruct (decide (n ≤ 0)) as [Hn|Hn].
  - assert (np = 1) as ->.
    { destruct (decide (np = 1)) as [|Hne]; [done|].
      specialize (Hin 1). rewrite Hmem in Hin. lia. }
    by rewrite !seqZ_nil by lia.
  - f_equal. rewrite Hmem in Hout.
    destruct (decide (np ≤ n + 1)) as [Hle|Hgt]; [lia|].
    specialize (Hin (n + 1)). rewrite Hmem in Hin. lia.
Qed.
End EmissionOrder.

(** The scenario of the specification: five pages finishing in the order
    3, 1, 5, 2, 4. *)
Lemma print_worker_in_order_witness :
  [3; 1; 5; 2; 4] ≡ₚ pages 5 ∧
  (handed (print_worker a4_600dpi
             ((λ p, (p, a4_page)) <$> [3; 1; 5; 2; 4]) new_printer).1).*1
  = pages 5.
Proof.
  assert ([3; 1; 5; 2; 4] ≡ₚ pages 5) as Hperm.
  { apply (bool_decide_unpack _). vm_compute. reflexivity. }
  split; [exact Hperm|].
  apply (print_worker_in_order a4_600dpi 5). exact Hperm.
Defined.

(** ** The buffer invariant *)

Section BufferInvariant.
Variable env : Env.

Lemma drain_buffer_sub fuel w s p x :
  buffer (drain env fuel w s).1 !! p = Some x → buffer w !! p = Some x.
Proof.
  revert w s. induction fuel as [|fuel IH]; intros w s; simpl; [done|].
  destruct (buffer w !! next_page w) as [img|] eqn:Hnext; [|done].
  intros Hx%IH. simpl in Hx. by apply lookup_delete_Some in Hx as [_ Hx].
Qed.

Lemma drain_handed fuel w s :
  let w' := (drain env fuel w s).1 in
  (handed w').*1
  = (handed w).*1 ++ seqZ (next_page w) (next_page w' - next_page w).
Proof.
  revert w s. induction fuel as [|fuel IH]; intros w s; simpl.
  - rewrite seqZ_nil by lia. by rewrite app_nil_r.
  - destruct (buffer w !! next_page w) as [img|] eqn:Hnext; simpl.
    + rewrite IH. simpl. rewrite fmap_app, <- app_assoc. f_equal. simpl.
      match goal with |- context [drain env fuel ?w1 ?s1] =>
        pose proof (drain_next_page_mono env fuel w1 s1) as Hmono;
        set (w' := (drain env fuel w1 s1).1) in *
      end.
      simpl in Hmono.
      rewrite (seqZ_cons (next_page w)) by lia.
      do 2 f_equal; lia.
    + rewrite seqZ_nil by lia. by rewrite app_nil_r.
Qed.

Lemma drain_popped fuel w s p :
  let w' := (drain env fuel w s).1 in
  next_page w ≤ p < next_page w' → buffer w' !! p = None.
Proof.
  revert w s. induction fuel as [|fuel IH]; intros w s; simpl; [lia|].
  destruct (buffer w !! next_page w) as [img|] eqn:Hnext; simpl; [|lia].
  intros Hp. destruct (decide (p = next_page w)) as [->|Hne].
  - match goal with |- ?m !! _ = None => destruct (m !! next_page w) as [x|] eqn:Hx end;
      [|done].
    apply drain_buffer_sub in Hx. simpl in Hx.
    by rewrite lookup_delete_eq in Hx.
  - apply IH. simpl. lia.
Qed.

Lemma drain_pending_ahead fuel w s :
  pending_ahead w → pending_ahead (drain env fuel w s).1.
Proof.
  revert w s. induction fuel as [|fuel IH]; intros w s Hw; simpl; [done|].
  destruct (buffer w !! next_page w) as [img|] eqn:Hnext; [|done].
  apply IH. intros p [x Hx]. simpl in *.
  apply lookup_delete_Some in Hx as [Hne Hx].
  specialize (Hw p (ex_intro _ x Hx)). lia.
Qed.

Lemma accept_pending_ahead ws item :
  pending_ahead ws.1 → next_page ws.1 ≤ item.1 →
  pending_ahead (accept env ws item).1.
Proof.
  intros Hw Hle. unfold accept. apply drain_pending_ahead.
  intros p [x Hx]. simpl in *.
  apply lookup_insert_Some in Hx as [[<- _]|[_ Hx]]; [done|].
  apply Hw. eauto.
Qed.

Lemma drain_handed_incl fuel w s item :
  item ∈ handed w → item ∈ handed (drain env fuel w s).1.
Proof.
  revert w s. induction fuel as [|fuel IH]; intros w s Hin; simpl; [done|].
  destruct (buffer w !! next_page w) as [img|]; [|done].
  apply IH. simpl. apply elem_of_app. by left.
Qed.

(** A page the loop has passed was in the buffer, and it was handed over
    with the image the buffer held for it. *)
Lemma drain_popped_from fuel w s p :
  let w' := (drain env fuel w s).1 in
  next_page w ≤ p < next_page w' →
  ∃ img, buffer w !! p = Some img ∧ (p, img) ∈ handed w'.
Proof.
  revert w s. induction fuel as [|fuel IH]; intros w s; simpl; [lia|].
  destruct (buffer w !! next_page w) as [img|] eqn:Hnext; simpl; [|lia].
  intros Hp. destruct (decide (p = next_page w)) as [->|Hne].
  - exists img. split; [done|].
    apply drain_handed_incl. simpl. apply elem_of_app. right.
    apply list_elem_of_singleton. done.
  - match goal with |- context [drain env fuel ?w1 ?s1] =>
      destruct (IH w1 s1) as (img' & Hbuf & Hin); [simpl; lia|]
    end.
    simpl in Hbuf. apply lookup_delete_Some in Hbuf as [_ Hbuf]. eauto.
Qed.

(** The loop touches no other key of the buffer. *)
Lemma drain_buffer_other fuel w s p :
  let w' := (drain env fuel w s).1 in
  ¬ (next_page w ≤ p < next_page w') → buffer w' !! p = buffer w !! p.
Proof.
  revert w s. induction fuel as [|fuel IH]; intros w s; simpl; [done|].
  destruct (buffer w !! next_page w) as [img|] eqn:Hnext; simpl; [|done].
  match goal with |- context [drain env fuel ?w1 ?s1] =>
    pose proof (drain_next_page_mono env fuel w1 s1) as Hmono;
    pose proof (IH w1 s1) as Hrest
  end.
  simpl in Hmono, Hrest. intros Hp.
  rewrite Hrest by lia. apply lookup_delete_ne. lia.
Qed.

(** C3, as the code has it.  For every accept: [next_page] does not
    decrease; the pages handed over by this accept are the consecutive
    ones from the old [next_page] up to the new one, each popped from
    the buffer, where it was stored, and handed over with the image
    stored for it; the loop stops only when [next_page] is not in the
    buffer, and it touches no other key; and when the accepted page
    number is not below [next_page], buffered page numbers stay at or
    after [next_page]. *)
Theorem accept_reorder_step (ws : Worker * Printer) (item : Z * Image) :
  let ws' := accept env ws item in
  let stored := <[item.1 := item.2]> (buffer ws.1) in
  next_page ws.1 ≤ next_page ws'.1 ∧
  (handed ws'.1).*1
    = (handed ws.1).*1
      ++ seqZ (next_page ws.1) (next_page ws'.1 - next_page ws.1) ∧
  (∀ p, next_page ws.1 ≤ p < next_page ws'.1 → buffer ws'.1 !! p = None) ∧
  (pending_ahead ws.1 → next_page ws.1 ≤ item.1 → pending_ahead ws'.1) ∧
  buffer ws'.1 !! next_page ws'.1 = None ∧
  (∀ p, next_page ws.1 ≤ p < next_page ws'.1 →
        ∃ img, stored !! p = Some img ∧ (p, img) ∈ handed ws'.1) ∧
  (∀ p, ¬ (next_page ws.1 ≤ p < next_page ws'.1) →
        buffer ws'.1 !! p = stored !! p).
Proof.
  simpl. split_and!.
  - unfold accept.
    match goal with |- _ ≤ next_page (drain _ ?f ?w ?s).1 =>
      exact (drain_next_page_mono env f w s) end.
  - unfold accept. by rewrite drain_handed.
  - intros p Hp. unfold accept in *. by apply drain_popped.
  - apply accept_pending_ahead.
  - apply accept_exits.
  - intros p Hp. unfold accept in *.
    match goal with |- context [drain env ?f ?w ?s] =>
      exact (drain_popped_from f w s p Hp) end.
  - intros p Hp. unfold accept in *.
    match goal with |- context [drain env ?f ?w ?s] =>
      exact (drain_buffer_other f w s p Hp) end.
Qed.

(** When every page number is at least 1 and arrives at most once, the
    invariant holds after the whole run. *)
Lemma print_worker_pending_ahead arrivals s :
  NoDup arrivals.*1 → (∀ p, p ∈ arrivals.*1 → 1 ≤ p) →
  pending_ahead (print_worker env arrivals s).1.
Proof.
  induction arrivals as [|item arrivals IH] using rev_ind; intros Hnd Hpos.
  - intros p [x Hx]. unfold print_worker in Hx. simpl in Hx.
    by rewrite lookup_empty in Hx.
  - unfold print_worker. rewrite foldl_snoc.
    rewrite fmap_app in Hnd, Hpos. simpl in Hnd, Hpos.
    apply NoDup_app in Hnd as (Hnd & Hfresh & _).
    apply accept_pending_ahead.
    + apply IH; [done|]. intros p Hp. apply Hpos, elem_of_app. by left.
    + destruct (print_worker_tracks env arrivals s) as [_ _ _ _ H5].
      destruct (decide (next_page (print_worker env arrivals s).1 ≤ item.1))
        as [|Hlt]; [done|].
      exfalso. apply (Hfresh item.1); [|apply list_elem_of_singleton; done].
      apply H5. split; [|unfold print_worker in *; lia].
      apply Hpos, elem_of_app. right. by apply list_elem_of_singleton.
Qed.

(** C4. Accepting a page number that was already handed over (below
    [next_page]) or that is already buffered hands nothing to the
    emission routine and leaves the printer untouched; and whatever is
    accepted afterwards, no page number is handed over twice. *)
Theorem duplicate_accept_silent (arrivals : list (Z * Image)) (s : Printer)
    (item : Z * Image) :
  let ws := print_worker env arrivals s in
  item.1 < next_page ws.1 ∨ is_Some (buffer ws.1 !! item.1) →
  handed (accept env ws item).1 = handed ws.1 ∧
  (accept env ws item).2 = ws.2 ∧
  ∀ more, NoDup (handed (foldl (accept env) (accept env ws item) more).1).*1.
Proof.
  simpl. intros Hdup.
  pose proof (print_worker_exits env arrivals s) as Hex. simpl in Hex.
  set (ws := print_worker env arrivals s) in *.
  assert (item.1 ≠ next_page ws.1) as Hne.
  { destruct Hdup as [Hlt|[x Hx]]; [lia|congruence]. }
  assert (accept env ws item
          = ({| next_page := next_page ws.1;
                buffer := <[item.1 := item.2]> (buffer ws.1);
                handed := handed ws.1 |}, ws.2)) as Hacc.
  { unfold accept. simpl.
    destruct (base.size _) as [|fuel]; simpl; [done|].
    rewrite lookup_insert_ne by done. by rewrite Hex. }
  split_and!.
  - by rewrite Hacc.
  - by rewrite Hacc.
  - intros more.
    replace (foldl (accept env) (accept env ws item) more)
      with (print_worker env (arrivals ++ item :: more) s)
      by (unfold print_worker, ws; by rewrite foldl_app).
    destruct (print_worker_tracks env (arrivals ++ item :: more) s)
      as [_ -> _ _ _].
    apply NoDup_seqZ.
Qed.
End BufferInvariant.

(** C3 as written fails on the code: a page number that arrives again
    after it was handed over is stored below [next_page] and stays
    there. *)
Lemma pending_behind_after_duplicate :
  ¬ pending_ahead
      (print_worker a4_600dpi [(1, a4_page); (1, a4_page)] new_printer).1.
Proof.
  intros Hahead. specialize (Hahead 1).
  assert (2 ≤ 1) as Habs; [|lia].
  apply Hahead. vm_compute. eauto.
Qed.

Lemma accept_reorder_step_witness :
  let ws := accept a4_600dpi (new_worker, new_printer) (2, a4_page) in
  let ws' := accept a4_600dpi ws (1, a4_page) in
  pending_ahead ws.1 ∧ next_page ws.1 ≤ 1 ∧
  next_page ws'.1 = 3 ∧
  handed ws'.1 = [(1, a4_page); (2, a4_page)] ∧
  buffer ws'.1 !! 3 = None ∧
  pending_ahead ws'.1.
Proof.
  intros ws ws'.
  assert (pending_ahead ws.1) as Hahead.
  { intros p [x Hx]. vm_compute in Hx. unfold pending_ahead.
    change (next_page ws.1) with 1.
    destruct (decide (p = 2)) as [->|Hne]; [lia|].
    exfalso. revert Hx.
    change (({[2 := a4_page]} : gmap Z Image) !! p = Some x → False).
    by rewrite lookup_singleton_ne. }
  assert (next_page ws.1 ≤ 1) as Hle by (vm_compute; discriminate).
  assert (next_page ws'.1 = 3) as Hnext by (vm_compute; reflexivity).
  destruct (accept_reorder_step a4_600dpi ws (1, a4_page))
    as (_ & _ & _ & Hkeep & Hexit & _ & _).
  fold ws' in Hkeep, Hexit. rewrite Hnext in Hexit.
  split_and!; [exact Hahead|exact Hle|exact Hnext|vm_compute; reflexivity|
               exact Hexit|].
  apply Hkeep; [exact Hahead|exact Hle].
Defined.

Lemma duplicate_accept_silent_witness :
  let ws := print_worker a4_600dpi [(1, a4_page)] new_printer in
  (1 < next_page ws.1 ∨ is_Some (buffer ws.1 !! 1)) ∧
  handed (accept a4_600dpi ws (1, a4_page)).1 = handed ws.1.
Proof.
  simpl.
  assert (1 < next_page (print_worker a4_600dpi [(1, a4_page)] new_printer).1)
    as Hlt by (vm_compute; reflexivity).
  split; [by left|].
  apply (duplicate_accept_silent a4_600dpi [(1, a4_page)] new_printer
           (1, a4_page)).
  by left.
Defined.


(** ** Stepwise execution of the emission routine *)

Section Wp.
Variable env : Env.

Lemma wp_ret {A} (a : A) s Q : Q (Ok a) s → wp (mret a) s Q.
Proof. done. Qed.

Lemma wp_raise {A} e s (Q : Result A → Printer → Prop) :
  Q (Raise e) s → wp (raise e) s Q.
Proof. done. Qed.

Lemma wp_bind {A B} (m : M A) (k : A → M B) s Q :
  wp m s (λ r s', match r with
                  | Ok a => wp (k a) s' Q
                  | Raise e => Q (Raise e) s'
                  end) →
  wp (m ≫= k) s Q.
Proof.
  unfold wp, mbind, M_bind, bind. by destruct (m s) as [[a|e] s'].
Qed.

Lemma wp_try {A} (body : M A) (handler : Exn → M A) s Q :
  wp body s (λ r s', match r with
                     | Ok a => Q (Ok a) s'
                     | Raise e => wp (handler e) s' Q
                     end) →
  wp (try_except body handler) s Q.
Proof.
  unfold wp, try_except. by destruct (body s) as [[a|e] s'].
Qed.

Lemma wp_call c s Q :
  (∀ ok, accepts env (trace s) c = ok →
         Q (if ok then Ok tt else Raise (CallError c))
           (set_trace (trace s ++ [mkEvent c ok]) s)) →
  wp (call env c) s Q.
Proof. intros HQ. apply (HQ _ eq_refl). Qed.

Lemma wp_dc_call c s Q :
  match printer_dc s with
  | Some _ => wp (call env c) s Q
  | None => Q (Raise AttributeError) s
  end →
  wp (dc_call env c) s Q.
Proof.
  unfold dc_call. intros HQ. apply wp_bind. unfold wp at 1, get_dc. simpl.
  by destruct (printer_dc s).
Qed.

Lemma wp_get_dc s Q : Q (Ok (printer_dc s)) s → wp get_dc s Q.
Proof. done. Qed.

Lemma wp_put_dc v s Q : Q (Ok tt) (set_printer_dc v s) → wp (put_dc v) s Q.
Proof. done. Qed.

Lemma wp_get_total s Q : Q (Ok (total s)) s → wp get_total s Q.
Proof. done. Qed.

Lemma wp_lift {A} (r : Result A) s Q : Q r s → wp (lift r) s Q.
Proof. done. Qed.

Lemma wp_emit_page img page s (P : Printer → Prop) :
  wp (print_image_working env img page) s
     (λ r s', match r with
              | Ok _ => P (set_printed (printed s' + 1) s')
              | Raise _ => P s'
              end) →
  P (emit_page env img page s).
Proof.
  unfold wp, emit_page.
  by destruct (print_image_working env img page s) as [[a|e] s'].
Qed.

Lemma wp_run {A} (m : M A) s r s' Q :
  m s = (r, s') → wp m s Q → Q r s'.
Proof. unfold wp. by intros ->. Qed.

Lemma wp_state {A} (m : M A) s (P : Printer → Prop) :
  wp m s (λ _ s', P s') → P (m s).2.
Proof. done. Qed.
End Wp.

Global Opaque wp.
Global Arguments emit_page : simpl never.
Global Arguments print_image_working : simpl never.
Global Arguments final_close : simpl never.

(** Reduce the projections of the states built so far. *)
Ltac wp_simpl :=
  cbn [trace printer_dc total printed converted set_trace set_printer_dc
       set_printed set_converted set_total] in *.

(** One step of execution; a call splits into the accepted and the
    refused case, with the answer of the device as hypothesis. *)
Ltac wp_step :=
  lazymatch goal with
  | |- wp (mbind _ _) _ _ => apply wp_bind
  | |- wp (try_except _ _) _ _ => apply wp_try
  | |- wp (call _ _) _ _ => apply wp_call; intros [] ?
  | |- wp (dc_call _ _) _ _ => apply wp_dc_call
  | |- wp (mret _) _ _ => apply wp_ret
  | |- wp (ret _) _ _ => apply (wp_ret _)
  | |- wp (raise _) _ _ => apply wp_raise
  | |- wp get_dc _ _ => apply wp_get_dc
  | |- wp (put_dc _) _ _ => apply wp_put_dc
  | |- wp get_total _ _ => apply wp_get_total
  | |- wp (lift ?r) _ _ => apply wp_lift; destruct r eqn:?
  | |- wp (if ?b then _ else _) _ _ => destruct b eqn:?
  | |- wp (match ?x with _ => _ end) _ _ => destruct x eqn:?
  | |- wp (print_image_working _ _ _) _ _ => unfold print_image_working
  | |- wp (page_body _ _ _) _ _ => unfold page_body
  | |- wp (open_job _) _ _ => unfold open_job
  | |- wp (cleanup _) _ _ => unfold cleanup
  | |- wp (final_close _) _ _ => unfold final_close
  | |- match ?x with _ => _ end => destruct x eqn:?
  end; wp_simpl.

(** ** The emission routine on a device that accepts every call *)

Lemma draw_rect_convert_rgb W H img :
  draw_rect W H (convert_rgb img) = draw_rect W H img.
Proof. reflexivity. Qed.

Lemma final_close_none env s :
  printer_dc s = None → final_close env s = (Ok tt, s).
Proof.
  intros Hdc. unfold final_close, mbind, M_bind, bind, get_dc.
  by rewrite Hdc.
Qed.

Section SinglePage.
Variables (W H : Z) (doc : Document) (img : Image) (imgs : list Image).
Variable rect : Z * Z * Z * Z.
Hypothesis Hexists : path_exists doc = true.
Hypothesis Hpages : pdfinfo_pages doc = Ok 1.
Hypothesis Hconvert : convert_from_path doc 1 = Ok (img :: imgs).
Hypothesis Hrect : draw_rect W H img = Ok rect.

Lemma single_page_emit s :
  printer_dc s = None → total s = 1 → trace s = [] →
  let s' := emit_page (accepting W H) img 1 s in
  printer_dc s' = None ∧ total s' = 1 ∧ printed s' = printed s + 1 ∧
  ev_call <$> trace s'
  = (if bool_decide (mode img = "RGB") then [] else [PILConvert])
    ++ [CreateDC; CreatePrinterDC; StartDoc; StartPage;
        GetDeviceCaps HORZRES; GetDeviceCaps VERTRES; PILDib;
        GetHandleOutput; Draw rect; EndPage; EndDoc; DeleteDC] ∧
  Forall (λ e, ev_ok e = true) (trace s').
Proof.
  intros Hdc Htot Htr. simpl. apply wp_emit_page.
  pose proof (draw_rect_convert_rgb W H img) as Hrgb.
  destruct s as [cv pr tot dc tr]. simpl in Hdc, Htot, Htr. subst.
  repeat wp_step; try discriminate.
  all: try match goal with
           | Hr : draw_rect _ _ _ = _ |- _ =>
               simpl in Hr; rewrite ?Hrgb, Hrect in Hr; simplify_eq
           end.
  all: by (split_and!; [done..|repeat constructor]).
Qed.

Lemma single_page_trace :
  let r := print_pdf (accepting W H) doc [1] new_printer in
  r.1.1 = Completed 1 1 ∧
  ev_call <$> trace r.2
  = (if bool_decide (mode img = "RGB") then [] else [PILConvert])
    ++ [CreateDC; CreatePrinterDC; StartDoc; StartPage;
        GetDeviceCaps HORZRES; GetDeviceCaps VERTRES; PILDib;
        GetHandleOutput; Draw rect; EndPage; EndDoc; DeleteDC] ∧
  Forall (λ e, ev_ok e = true) (trace r.2).
Proof.
  unfold print_pdf, arrivals_of. rewrite Hexists, Hpages. simpl.
  unfold convert_job. rewrite Hconvert. simpl.
  unfold print_worker, accept. simpl.
  rewrite insert_empty, map_size_singleton. simpl.
  rewrite lookup_singleton_eq.
  match goal with |- context [emit_page _ img 1 ?s] =>
    destruct (single_page_emit s) as (Hdc & Htot & Hpr & Htr & Hok);
      [done..|]; set (s' := emit_page (accepting W H) img 1 s) in *
  end.
  rewrite final_close_none by done. simpl in *.
  rewrite Htot, Hpr. simpl. done.
Qed.
End SinglePage.

(** C8. A one-page document whose page converts, printed on a device
    that accepts every call: the device sees StartDoc, StartPage, the
    drawing call, EndPage and EndDoc, once each and in that order, and
    no call fails. *)
Theorem single_page_job_markers (W H : Z) (doc : Document)
    (schedule : list Z) (img : Image) (imgs : list Image)
    (rect : Z * Z * Z * Z) :
  path_exists doc = true →
  pdfinfo_pages doc = Ok 1 →
  convert_from_path doc 1 = Ok (img :: imgs) →
  draw_rect W H img = Ok rect →
  admissible doc schedule →
  let r := print_pdf (accepting W H) doc schedule new_printer in
  job_markers r.2 = [StartDoc; StartPage; Draw rect; EndPage; EndDoc] ∧
  Forall (λ e, ev_ok e = true) (trace r.2) ∧
  r.1.1 = Completed 1 1.
Proof.
  intros Hexists Hpages Hconvert Hrect Hadm.
  unfold admissible in Hadm. rewrite Hpages in Hadm.
  change (pages 1) with [1] in Hadm.
  apply Permutation_singleton_r in Hadm as ->.
  destruct (single_page_trace W H doc img imgs rect Hexists Hpages Hconvert
              Hrect) as (Hout & Htrace & Hok).
  cbv zeta. split_and!; [|done|done].
  unfold job_markers. rewrite Htrace.
  by destruct (bool_decide (mode img = "RGB")).
Qed.

Lemma single_page_job_markers_witness :
  job_markers
    (print_pdf a4_600dpi (document_failing 1 []) [1] new_printer).2
  = [StartDoc; StartPage; Draw (0, 0, 4960, 7016); EndPage; EndDoc].
Proof.
  apply (single_page_job_markers 4961 7016 (document_failing 1 []) [1]
           a4_page [] (0, 0, 4960, 7016)).
  - reflexivity.
  - reflexivity.
  - reflexivity.
  - vm_compute. reflexivity.
  - unfold admissible. simpl. reflexivity.
Defined.

(** ** Cleanup after a failure inside the page bracket *)

Lemma suffix_snoc {A} (l : list A) (a : A) : [a] `suffix_of` l ++ [a].
Proof. by exists l. Qed.

Lemma suffix_snoc2 {A} (l : list A) (a b : A) :
  [a; b] `suffix_of` (l ++ [a]) ++ [b].
Proof. exists l. by rewrite <- app_assoc. Qed.

Section Cleanup.
Variable env : Env.

Lemma failure_in_page_aborts img page s e s' :
  print_image_working env img page s = (Raise e, s') →
  in_bracket e = true →
  page = 1 ∨ is_Some (printer_dc s) →
  cleaned_up s'.
Proof.
  intros Hrun Hin Hheld. revert Hin.
  apply (wp_run _ _ _ _
           (λ r s', match r with
                    | Ok _ => True
                    | Raise e => in_bracket e = true → cleaned_up s'
                    end) Hrun).
  clear Hrun. destruct s as [cv pr tot dc tr]. unfold cleaned_up.
  destruct Hheld as [->|[d Hd]]; simpl in *; subst.
  all: repeat wp_step; try done.
  all: intros _; eauto using suffix_snoc, suffix_snoc2.
Qed.
End Cleanup.

(** ** One end-of-job call per device context *)

Lemma opens_snoc tr e :
  opens (tr ++ [e]) = (opens tr + if is_open e then 1 else 0)%nat.
Proof.
  unfold opens. rewrite List.filter_app, length_app. simpl.
  by destruct (is_open e).
Qed.

Lemma closes_snoc tr e :
  closes (tr ++ [e]) = (closes tr + if is_close e then 1 else 0)%nat.
Proof.
  unfold closes. rewrite List.filter_app, length_app. simpl.
  by destruct (is_close e).
Qed.

Lemma emit_all_app env items1 items2 s :
  emit_all env (items1 ++ items2) s
  = emit_all env items2 (emit_all env items1 s).
Proof. unfold emit_all. by rewrite foldl_app. Qed.

Section CloseOnce.
Variable env : Env.
Hypothesis Hreliable : reliable_close env.

Lemma reliable_EndDoc tr : accepts env tr EndDoc = true.
Proof. apply Hreliable. apply elem_of_cons. by left. Qed.
Lemma reliable_DeleteDC tr : accepts env tr DeleteDC = true.
Proof. apply Hreliable. do 1 apply list_elem_of_further. apply elem_of_cons. by left. Qed.
Lemma reliable_AbortDoc tr : accepts env tr AbortDoc = true.
Proof. apply Hreliable. do 2 apply list_elem_of_further. apply elem_of_cons. by left. Qed.

(** A refused end-of-job call contradicts [reliable_close]. *)
Ltac prune :=
  lazymatch goal with
  | Hno : accepts env _ EndDoc = false |- _ =>
      by rewrite reliable_EndDoc in Hno
  | Hno : accepts env _ DeleteDC = false |- _ =>
      by rewrite reliable_DeleteDC in Hno
  | Hno : accepts env _ AbortDoc = false |- _ =>
      by rewrite reliable_AbortDoc in Hno
  end.

Ltac count :=
  unfold balanced, held in *; wp_simpl;
  rewrite ?opens_snoc, ?closes_snoc; simpl; lia.

Lemma emit_page_balanced img page s :
  page ≠ 1 ∨ printer_dc s = None →
  balanced s →
  let s' := emit_page env img page s in
  balanced s' ∧
  (opens (trace s') ≤ opens (trace s) + if (page =? 1)%Z then 1 else 0)%nat.
Proof.
  intros Hpage Hbal. simpl. apply wp_emit_page.
  destruct s as [cv pr tot dc tr].
  destruct Hpage as [Hne|Hdc]; simpl in *; subst.
  all: repeat (wp_step; try prune); try lia.
  all: count.
Qed.

Lemma emit_all_balanced_later items s :
  Forall (λ item : Z * Image, item.1 ≠ 1) items →
  balanced s →
  balanced (emit_all env items s) ∧
  (opens (trace (emit_all env items s)) ≤ opens (trace s))%nat.
Proof.
  revert s. induction items as [|item items IH]; intros s Hlater Hbal.
  - split; [done|]. simpl. lia.
  - apply Forall_cons in Hlater as [Hitem Hlater].
    destruct (emit_page_balanced item.2 item.1 s) as [Hbal' Hopens];
      [by left|done|].
    destruct (IH _ Hlater Hbal') as [Hbal'' Hopens'].
    apply Z.eqb_neq in Hitem. rewrite Hitem in Hopens.
    change (emit_all env (item :: items) s)
      with (emit_all env items (emit_page env item.2 item.1 s)).
    split; [done|]. lia.
Qed.

Lemma emit_all_balanced items k s :
  items.*1 = seqZ 1 k →
  printer_dc s = None →
  balanced s →
  balanced (emit_all env items s) ∧
  (opens (trace (emit_all env items s)) ≤ opens (trace s) + 1)%nat.
Proof.
  intros Hpages Hdc Hbal.
  destruct (decide (k ≤ 0)) as [Hk|Hk].
  - rewrite seqZ_nil in Hpages by done.
    apply fmap_nil_inv in Hpages as ->. split; [done|]. simpl. lia.
  - rewrite seqZ_cons in Hpages by lia.
    destruct items as [|item items]; [done|].
    simpl in Hpages. injection Hpages as Hfirst Hrest.
    destruct (emit_page_balanced item.2 item.1 s) as [Hbal' Hopens];
      [by right|done|].
    assert ((item.1 =? 1) = true) as Heq by (by rewrite Hfirst).
    rewrite Heq in Hopens.
    destruct (emit_all_balanced_later items
                (emit_page env item.2 item.1 s)) as [Hbal'' Hopens'];
      [|done|].
    + apply Forall_forall. intros it Hit.
      assert (it.1 ∈ seqZ (Z.succ 1) (Z.pred k)) as Hin.
      { rewrite <- Hrest. by apply list_elem_of_fmap_2. }
      apply elem_of_seqZ in Hin. lia.
    + change (emit_all env (item :: items) s)
        with (emit_all env items (emit_page env item.2 item.1 s)).
      split; [done|]. lia.
Qed.

Lemma final_close_balanced s :
  balanced s →
  let s' := (final_close env s).2 in
  printer_dc s' = None ∧ closes (trace s') = opens (trace s') ∧
  opens (trace s') = opens (trace s).
Proof.
  intros Hbal. simpl.
  apply (wp_state (final_close env) s
           (λ s', printer_dc s' = None ∧ closes (trace s') = opens (trace s')
                  ∧ opens (trace s') = opens (trace s))).
  destruct s as [cv pr tot dc tr].
  repeat (wp_step; try prune).
  all: split; [done|]; count.
Qed.
End CloseOnce.

Section PrinterOfWorker.
Variable env : Env.

Lemma drain_emit_all fuel w s :
  ∃ new, handed (drain env fuel w s).1 = handed w ++ new ∧
         (drain env fuel w s).2 = emit_all env new s.
Proof.
  revert w s. induction fuel as [|fuel IH]; intros w s; simpl.
  - exists []. by rewrite app_nil_r.
  - destruct (buffer w !! next_page w) as [img|] eqn:Hnext.
    + edestruct IH as (new & Hh & Hs). rewrite Hh, Hs. simpl.
      exists ((next_page w, img) :: new). by rewrite <- app_assoc.
    + exists []. by rewrite app_nil_r.
Qed.

Lemma accept_emit_all ws item :
  ∃ new, handed (accept env ws item).1 = handed ws.1 ++ new ∧
         (accept env ws item).2 = emit_all env new ws.2.
Proof.
  unfold accept.
  match goal with |- context [drain env ?f ?w ?s] =>
    exact (drain_emit_all f w s) end.
Qed.

Lemma foldl_accept_emit_all ws arrivals :
  ∃ new, handed (foldl (accept env) ws arrivals).1 = handed ws.1 ++ new ∧
         (foldl (accept env) ws arrivals).2 = emit_all env new ws.2.
Proof.
  revert ws. induction arrivals as [|item arrivals IH]; intros ws; simpl.
  - exists []. by rewrite app_nil_r.
  - destruct (IH (accept env ws item)) as (new2 & Hh2 & Hs2).
    destruct (accept_emit_all ws item) as (new1 & Hh1 & Hs1).
    rewrite Hh2, Hs2, Hh1, Hs1.
    exists (new1 ++ new2). by rewrite emit_all_app, app_assoc.
Qed.

(** The printer after the worker has run: the pages of [handed],
    emitted one after the other. *)
Lemma print_worker_emit_all arrivals s :
  (print_worker env arrivals s).2
  = emit_all env (handed (print_worker env arrivals s).1) s.
Proof.
  destruct (foldl_accept_emit_all (new_worker, s) arrivals)
    as (new & Hh & Hs).
  unfold print_worker. rewrite Hh, Hs. done.
Qed.
End PrinterOfWorker.

Section JobClose.
Variable env : Env.

Lemma balanced_fresh s :
  trace s = [] → printer_dc s = None → balanced s.
Proof. intros Htr Hdc. unfold balanced, held. by rewrite Htr, Hdc. Qed.

(** Over a whole job on a device whose end-of-job calls never fail, a
    device context that was created receives exactly one EndDoc or
    AbortDoc, and none is left open. *)
Lemma job_closes_once doc schedule :
  reliable_close env →
  let r := print_pdf env doc schedule new_printer in
  printer_dc r.2 = None ∧
  closes (trace r.2) = opens (trace r.2) ∧
  (opens (trace r.2) ≤ 1)%nat.
Proof.
  intros Hrel. unfold print_pdf.
  assert (printer_dc new_printer = None ∧
          closes (trace new_printer) = opens (trace new_printer) ∧
          (opens (trace new_printer) ≤ 1)%nat) as Hnew.
  { split_and!; [done|done|]. unfold opens. simpl. lia. }
  destruct (path_exists doc); simpl; [|done].
  destruct (pdfinfo_pages doc) as [n|e]; simpl; [|done].
  match goal with |- context [print_worker env ?items ?s0] =>
    pose proof (print_worker_emit_all env items s0) as Hs;
    pose proof (print_worker_tracks env items s0) as [_ Hh _ _ _];
    destruct (print_worker env items s0) as [w s1] eqn:Hpw;
    destruct (emit_all_balanced env Hrel (handed w) (next_page w - 1) s0)
      as [Hbal Hopens]; [done|done|by apply balanced_fresh|]
  end.
  simpl in Hs. rewrite <- Hs in Hbal, Hopens. simpl in Hopens.
  destruct (final_close_balanced env Hrel s1 Hbal) as (Hdc & Hcl & Hop).
  simpl in *.
  by destruct (total (final_close env s1).2 =? 0); simpl;
    (split_and!; [done|done|lia]).
Qed.
End JobClose.

(** C5, as the code has it.  A failure raised inside the page bracket
    (from StartPage on, the scaling arithmetic included) while a device
    context is held runs the handler before the exception propagates:
    AbortDoc, then DeleteDC, then the handle is cleared, unless one of
    these two calls fails itself.  And over a whole job on a device whose
    EndDoc, DeleteDC and AbortDoc never fail, a context that was created
    receives exactly one EndDoc or AbortDoc and none is left open. *)
Theorem abort_and_close (env : Env) :
  (∀ img page s e s',
     print_image_working env img page s = (Raise e, s') →
     in_bracket e = true →
     page = 1 ∨ is_Some (printer_dc s) →
     cleaned_up s') ∧
  (reliable_close env →
   ∀ doc schedule,
     let r := print_pdf env doc schedule new_printer in
     printer_dc r.2 = None ∧
     closes (trace r.2) = opens (trace r.2) ∧
     (opens (trace r.2) ≤ 1)%nat).
Proof.
  split.
  - apply failure_in_page_aborts.
  - intros Hrel doc schedule. by apply job_closes_once.
Qed.

Lemma refusing_reliable_close W H :
  reliable_close (refusing [EndPage] W H).
Proof.
  intros tr c Hc. simpl. apply negb_true_iff, bool_decide_eq_false.
  rewrite list_elem_of_singleton. intros ->.
  repeat (apply elem_of_cons in Hc as [Hc|Hc]; [discriminate Hc|]).
  by apply elem_of_nil in Hc.
Qed.

Lemma abort_and_close_witness :
  let env := refusing [EndPage] 4961 7016 in
  let run := print_image_working env a4_page 1 new_printer in
  run.1 = Raise (CallError EndPage) ∧
  cleaned_up run.2 ∧
  reliable_close env ∧
  closes (trace (print_pdf env (document_failing 2 []) [2; 1] new_printer).2)
  = opens (trace (print_pdf env (document_failing 2 []) [2; 1] new_printer).2).
Proof.
  intros env run.
  destruct (abort_and_close env) as [Hclean Hclose].
  assert (run = (Raise (CallError EndPage), run.2)) as Hrun
    by (vm_compute; reflexivity).
  assert (reliable_close env) as Hrel by apply refusing_reliable_close.
  split_and!.
  - vm_compute. reflexivity.
  - apply (Hclean a4_page 1 new_printer (CallError EndPage) run.2 Hrun).
    + reflexivity.
    + by left.
  - exact Hrel.
  - apply (Hclose Hrel (document_failing 2 []) [2; 1]).
Defined.

(** C5 as written fails on the code.  A failure of StartDoc leaves the
    routine with no cleanup at all and the context still held; and when
    DeleteDC fails after the EndDoc of the last page, the same job
    receives AbortDoc as well, and a second EndDoc from [print_pdf]. *)
Lemma cleanup_skipped_and_job_closed_twice :
  (let run := print_image_working (refusing [StartDoc] 4961 7016)
                a4_page 1 new_printer in
   run.1 = Raise (CallError StartDoc) ∧
   printer_dc run.2 = Some PyCDC ∧
   ev_call <$> trace run.2 = [CreateDC; CreatePrinterDC; StartDoc]) ∧
  (let r := print_pdf (refusing [DeleteDC] 4961 7016)
              (document_failing 1 []) [1] new_printer in
   job_markers r.2
   = [StartDoc; StartPage; Draw (0, 0, 4960, 7016); EndPage;
      EndDoc; AbortDoc; EndDoc]).
Proof. split; vm_compute; auto. Qed.

(** ** A device context that cannot be created *)

Lemma draws_snoc tr e :
  draws (tr ++ [e]) = (draws tr + if is_draw e then 1 else 0)%nat.
Proof.
  unfold draws. rewrite List.filter_app, length_app. simpl.
  by destruct (is_draw e).
Qed.

Lemma starts_snoc tr e :
  starts (tr ++ [e]) = (starts tr + if is_started e then 1 else 0)%nat.
Proof.
  unfold starts. rewrite List.filter_app, length_app. simpl.
  by destruct (is_started e).
Qed.

Section CannotOpen.
Variable env : Env.
Hypothesis Hopen : cannot_open env.
Hypothesis Hneeds : page_needs_job env.

Ltac tally :=
  unfold idle in *; wp_simpl;
  rewrite ?starts_snoc, ?draws_snoc; simpl;
  repeat split; try done; try lia.

(** Branches that the two hypotheses exclude. *)
Ltac prune :=
  match goal with
  | Hall : ∀ tr, accepts env tr ?c = false,
    Hyes : accepts env _ ?c = true |- _ =>
      by rewrite Hall in Hyes
  | Hyes : accepts env _ StartPage = true |- _ =>
      exfalso; rewrite Hneeds in Hyes; [discriminate Hyes|tally]
  end.

Lemma emit_page_idle t img page s :
  idle t s → idle t (emit_page env img page s).
Proof.
  intros Hidle. apply wp_emit_page.
  destruct s as [cv pr tot dc tr]. destruct Hidle as (Hst & Hdr & Hpr & Htot).
  simpl in *. subst.
  destruct Hopen as [Hcreate|Hcreate].
  all: repeat (wp_step; try prune).
  all: tally.
Qed.

Lemma emit_all_idle t items s :
  idle t s → idle t (emit_all env items s).
Proof.
  revert s. induction items as [|item items IH]; intros s Hidle; [done|].
  apply IH, emit_page_idle, Hidle.
Qed.

Lemma final_close_idle t s :
  idle t s → idle t (final_close env s).2.
Proof.
  intros Hidle. apply wp_state.
  destruct s as [cv pr tot dc tr]. destruct Hidle as (Hst & Hdr & Hpr & Htot).
  simpl in *. subst.
  repeat wp_step.
  all: tally.
Qed.

Lemma job_idle doc schedule n :
  path_exists doc = true → pdfinfo_pages doc = Ok n →
  idle n (print_pdf env doc schedule new_printer).2.
Proof.
  intros Hexists Hpages. unfold print_pdf. rewrite Hexists, Hpages. simpl.
  match goal with |- context [print_worker env ?items ?s0] =>
    pose proof (print_worker_emit_all env items s0) as Hs;
    destruct (print_worker env items s0) as [w s1] eqn:Hpw;
    assert (idle n s0) as Hidle0 by done
  end.
  simpl in Hs. subst s1.
  pose proof (final_close_idle n _ (emit_all_idle n (handed w) _ Hidle0))
    as Hidle.
  by destruct (total _ =? 0).
Qed.
End CannotOpen.

(** C7, as the code has it.  When the device context cannot be created
    (CreateDC or CreatePrinterDC always fails) on a device that starts
    no page outside a started job, no page is drawn and none is counted
    as printed; [print_pdf] still returns normally, with its ordinary
    report: 0 of n pages. *)
Theorem job_without_device_context (env : Env) (doc : Document)
    (schedule : list Z) (n : Z) :
  cannot_open env →
  page_needs_job env →
  path_exists doc = true →
  pdfinfo_pages doc = Ok n →
  n ≠ 0 →
  let r := print_pdf env doc schedule new_printer in
  draws (trace r.2) = 0%nat ∧ printed r.2 = 0 ∧ r.1.1 = Completed 0 n.
Proof.
  intros Hopen Hneeds Hexists Hpages Hn.
  destruct (job_idle env Hopen Hneeds doc schedule n Hexists Hpages)
    as (_ & Hdraws & Hprinted & Htotal).
  cbv zeta. split_and!; [done|done|].
  revert Hprinted Htotal. unfold print_pdf. rewrite Hexists, Hpages. simpl.
  destruct (print_worker env _ _) as [w s1]. simpl.
  destruct (total _ =? 0) eqn:Hz; simpl; intros Hprinted Htotal.
  - apply Z.eqb_eq in Hz. congruence.
  - by rewrite Hprinted, Htotal.
Qed.

Lemma no_such_printer_cannot_open W H : cannot_open (no_such_printer W H).
Proof. by right. Qed.

Lemma no_such_printer_page_needs_job W H :
  page_needs_job (no_such_printer W H).
Proof. intros tr Hst. simpl. by rewrite Hst. Qed.

Lemma job_without_device_context_witness :
  let r := print_pdf (no_such_printer 4961 7016) (document_failing 3 [])
             [2; 3; 1] new_printer in
  cannot_open (no_such_printer 4961 7016) ∧
  page_needs_job (no_such_printer 4961 7016) ∧
  draws (trace r.2) = 0%nat ∧ printed r.2 = 0 ∧ r.1.1 = Completed 0 3.
Proof.
  intros r.
  split; [apply no_such_printer_cannot_open|].
  split; [apply no_such_printer_page_needs_job|].
  apply (job_without_device_context (no_such_printer 4961 7016)
           (document_failing 3 []) [2; 3; 1] 3).
  - apply no_such_printer_cannot_open.
  - apply no_such_printer_page_needs_job.
  - reflexivity.
  - reflexivity.
  - lia.
Defined.

(** C7 as written fails on the code: the job whose device context
    cannot be created ends like any other, with the COMPLETED report,
    and that report is the one of a job that lost its pages to a page
    failure (here EndPage failing on page 1). *)
Lemma device_failure_reported_as_completed :
  (print_pdf (no_such_printer 4961 7016) (document_failing 3 [])
     [2; 3; 1] new_printer).1.1 = Completed 0 3 ∧
  (print_pdf (refusing [EndPage] 4961 7016) (document_failing 3 [])
     [2; 3; 1] new_printer).1.1 = Completed 0 3.
Proof. split; vm_compute; reflexivity. Qed.

(** ** Failed conversions and the end of the job *)

Lemma convert_job_page cfp p item :
  convert_job cfp p = Some item → item.1 = p.
Proof.
  unfold convert_job. destruct (cfp p) as [[|img imgs]|e]; [done| |done].
  by intros [= <-].
Qed.

(** The page numbers that reach the print worker: the scheduled pages
    whose conversion produced an image. *)
Lemma elem_of_arrivals doc schedule p :
  p ∈ (arrivals_of doc schedule).*1 ↔
  p ∈ schedule ∧ is_Some (convert_job (convert_from_path doc) p).
Proof.
  unfold arrivals_of. rewrite list_elem_of_fmap. split.
  - intros (item & -> & Hitem). apply list_elem_of_omap in Hitem
      as (q & Hq & Hconv).
    pose proof (convert_job_page _ _ _ Hconv) as ->. eauto.
  - intros (Hp & item & Hconv). exists item. split.
    + symmetry. by eapply convert_job_page.
    + apply list_elem_of_omap. eauto.
Qed.


Lemma emit_page_total env img page s :
  total (emit_page env img page s) = total s.
Proof.
  apply (wp_emit_page env img page s (λ s', total s' = total s)).
  destruct s as [cv pr tot dc tr].
  by repeat wp_step.
Qed.

Lemma emit_all_total env items s : total (emit_all env items s) = total s.
Proof.
  revert s. induction items as [|item items IH]; intros s; [done|].
  change (emit_all env (item :: items) s)
    with (emit_all env items (emit_page env item.2 item.1 s)).
  by rewrite IH, emit_page_total.
Qed.

Lemma final_close_total env s : total (final_close env s).2 = total s.
Proof.
  apply (wp_state (final_close env) s (λ s', total s' = total s)).
  destruct s as [cv pr tot dc tr].
  by repeat wp_step.
Qed.

Section JobEnd.
Variables (env : Env) (doc : Document) (schedule : list Z) (n : Z).
Hypothesis Hexists : path_exists doc = true.
Hypothesis Hpages : pdfinfo_pages doc = Ok n.
Hypothesis Hadm : admissible doc schedule.

Lemma elem_of_schedule p : p ∈ schedule ↔ 1 ≤ p ≤ n.
Proof.
  unfold admissible in Hadm. rewrite Hpages in Hadm. rewrite Hadm.
  unfold pages. rewrite elem_of_seqZ. lia.
Qed.

(** The worker and the printer at the end of [print_pdf]. *)
Lemma print_pdf_unfold :
  ∃ s0, trace s0 = [] ∧ printer_dc s0 = None ∧ total s0 = n ∧
    let ws := print_worker env (arrivals_of doc schedule) s0 in
    let r := print_pdf env doc schedule new_printer in
    r.1.2 = ws.1 ∧
    r.2 = (final_close env (emit_all env (handed ws.1) s0)).2 ∧
    (n ≠ 0 → r.1.1 = Completed (printed r.2) n).
Proof.
  exists (set_converted (Z.of_nat (length (arrivals_of doc schedule)))
            (set_printer_dc None (set_printed 0
               (set_converted 0 (set_total n new_printer))))).
  split_and!; [done..|].
  cbv zeta. unfold print_pdf. rewrite Hexists, Hpages. simpl.
  match goal with |- context [print_worker env ?items ?s0] =>
    pose proof (print_worker_emit_all env items s0) as Hs;
    destruct (print_worker env items s0) as [w s1] eqn:Hpw
  end.
  simpl in Hs. subst s1.
  match goal with |- context [final_close env ?s1] =>
    assert (total (final_close env s1).2 = n) as Htot
      by (by rewrite final_close_total, emit_all_total)
  end.
  rewrite Htot.
  destruct (n =? 0) eqn:Hz; simpl; (split_and!; [done|done|]).
  - intros Hn. by apply Z.eqb_eq in Hz.
  - done.
Qed.
End JobEnd.

Lemma next_page_is env arrivals s m :
  1 ≤ m →
  (m ∉ arrivals.*1) →
  (∀ p, 1 ≤ p < m → p ∈ arrivals.*1) →
  next_page (print_worker env arrivals s).1 = m.
Proof.
  intros Hm Hout Hin.
  destruct (print_worker_tracks env arrivals s) as [Hstart _ _ _ _].
  destruct (print_worker_next_page env arrivals s) as [Hout' Hin'].
  simpl in *.
  set (np := next_page (print_worker env arrivals s).1) in *.
  destruct (Z.lt_trichotomy np m) as [Hlt|[Heq|Hgt]]; [|done|].
  - destruct Hout'. apply Hin. lia.
  - destruct Hout. apply Hin'. lia.
Qed.

(** C2, as the code has it.  When the conversion of exactly one page [k]
    fails, nothing is queued for that page and it is never handed to the
    emission routine; the pages before it are handed over in order; and
    the report of the job is the count of pages sent and the total. *)
Theorem one_failed_conversion (env : Env) (doc : Document)
    (schedule : list Z) (n k : Z) :
  path_exists doc = true →
  pdfinfo_pages doc = Ok n →
  admissible doc schedule →
  1 ≤ k ≤ n →
  convert_job (convert_from_path doc) k = None →
  (∀ p, 1 ≤ p ≤ n → p ≠ k →
        is_Some (convert_job (convert_from_path doc) p)) →
  let r := print_pdf env doc schedule new_printer in
  seqZ 1 (k - 1) `prefix_of` (handed r.1.2).*1 ∧
  (k ∉ (handed r.1.2).*1) ∧
  r.1.1 = Completed (printed r.2) n.
Proof.
  intros Hexists Hpages Hadm Hk Hfail Hothers.
  destruct (print_pdf_unfold env doc schedule n Hexists Hpages)
    as (s0 & _ & _ & _ & Hw & _ & Hout).
  cbv zeta in *. rewrite Hw.
  destruct (print_worker_tracks env (arrivals_of doc schedule) s0)
    as [_ -> _ _ _].
  rewrite (next_page_is env _ s0 k).
  - split_and!; [done| |apply Hout; lia].
    rewrite elem_of_seqZ. lia.
  - lia.
  - rewrite elem_of_arrivals, Hfail. by intros [_ [x ?]].
  - intros p Hp. apply elem_of_arrivals. split.
    + apply (elem_of_schedule doc schedule n); [done..|lia].
    + apply Hothers; lia.
Qed.


(** The scenario of the specification: page 7 of 10 fails to convert. *)
Lemma one_failed_conversion_witness :
  let r := print_pdf a4_600dpi (document_failing 10 [7])
             [3; 1; 5; 2; 4; 10; 9; 8; 7; 6] new_printer in
  admissible (document_failing 10 [7]) [3; 1; 5; 2; 4; 10; 9; 8; 7; 6] ∧
  seqZ 1 6 `prefix_of` (handed r.1.2).*1 ∧
  (7 ∉ (handed r.1.2).*1).
Proof.
  intros r.
  assert (admissible (document_failing 10 [7])
            [3; 1; 5; 2; 4; 10; 9; 8; 7; 6]) as Hadm.
  { unfold admissible. simpl.
    apply (bool_decide_unpack _). vm_compute. reflexivity. }
  split; [exact Hadm|].
  destruct (one_failed_conversion a4_600dpi (document_failing 10 [7])
              [3; 1; 5; 2; 4; 10; 9; 8; 7; 6] 10 7) as (Hpre & Hnot & _).
  - reflexivity.
  - reflexivity.
  - exact Hadm.
  - lia.
  - vm_compute. reflexivity.
  - intros p Hp Hne. unfold convert_job, document_failing. simpl.
    rewrite bool_decide_eq_false_2; [eauto|].
    rewrite list_elem_of_singleton. done.
  - split; [exact Hpre|exact Hnot].
Defined.

(** C2 as written fails on the code: with page 7 of 10 failing, pages
    8, 9 and 10 stay in the buffer and are never handed to the emission
    routine, and the report counts 6 pages of 10. *)
Lemma pages_after_failed_conversion_not_emitted :
  let r := print_pdf a4_600dpi (document_failing 10 [7])
             [3; 1; 5; 2; 4; 10; 9; 8; 7; 6] new_printer in
  (handed r.1.2).*1 = [1; 2; 3; 4; 5; 6] ∧
  (map_to_list (buffer r.1.2)).*1 ≡ₚ [8; 9; 10] ∧
  r.1.1 = Completed 6 10.
Proof.
  split_and!.
  - vm_compute. reflexivity.
  - apply (bool_decide_unpack _). vm_compute. reflexivity.
  - vm_compute. reflexivity.
Qed.



(** ** The HTTP handlers *)

Section Handlers.
Variable host : PrintServer.Host.
Variable d : gmap string PrintServer.Value.
Variable file_path : PrintServer.Value.
Hypothesis Hpath : d !! "file_path" = Some file_path.
Hypothesis Hexists : PrintServer.os_path_exists host file_path = true.

Lemma body_not_empty : bool_decide (d = ∅) = false.
Proof.
  apply bool_decide_eq_false. intros ->. by rewrite lookup_empty in Hpath.
Qed.

Lemma sync_constructor_raises printer dpi threads margin_mm :
  PrintServer.WorkingPDFPrinter host
    [("printer_name", printer); ("dpi", dpi); ("threads", threads);
     ("margin_mm", margin_mm)]
  = Raise (TypeError "unexpected keyword argument margin_mm").
Proof. reflexivity. Qed.

Lemma async_binding_succeeds printer dpi threads :
  is_ok (PrintServer.bind_keywords PrintServer.init_params
           [("printer_name", printer); ("dpi", dpi); ("threads", threads)])
  = true.
Proof. reflexivity. Qed.

Lemma sync_answers_500 :
  PrintServer.print_pdf host (Some d) = (PrintServer.mkResponse 500 false, []).
Proof.
  unfold PrintServer.print_pdf.
  rewrite body_not_empty, Hpath, Hexists. reflexivity.
Qed.

Lemma async_constructs name :
  PrintServer.GetDefaultPrinter host = Ok name →
  ∃ status cfg run,
    PrintServer.print_pdf_async host (Some d)
    = (PrintServer.mkResponse 200 true,
       Some (status, [PrintServer.Constructed cfg; PrintServer.Printing run])).
Proof.
  intros Hdefault. unfold PrintServer.print_pdf_async.
  rewrite body_not_empty, Hpath, Hexists. simpl.
  unfold PrintServer.async_job, PrintServer.WorkingPDFPrinter.
  simpl. rewrite Hdefault.
  destruct (PrintServer.truthy _);
    match goal with |- context [PrintServer.run_print_pdf ?h ?f ?s] =>
      destruct (PrintServer.run_print_pdf h f s) as [[[e| |p t] w] s'] eqn:Hrun
    end; simpl; eauto.
Qed.
End Handlers.

(** C10. A POST to /print whose body names an existing file is answered
    with 500 and nothing else happens: the constructor call carries the
    keyword margin_mm, which [__init__] does not accept, so no printer
    object is built and [print_pdf] is never called.  The call of
    /print-async carries the three accepted keywords only: its binding
    succeeds and, the default printer being known, the job builds its
    printer object and reaches the printing step. *)
Theorem sync_print_never_prints (host : PrintServer.Host)
    (d : gmap string PrintServer.Value) (file_path : PrintServer.Value) :
  d !! "file_path" = Some file_path →
  PrintServer.os_path_exists host file_path = true →
  PrintServer.print_pdf host (Some d)
  = (PrintServer.mkResponse 500 false, []) ∧
  (∀ printer dpi threads margin_mm,
     PrintServer.WorkingPDFPrinter host
       [("printer_name", printer); ("dpi", dpi); ("threads", threads);
        ("margin_mm", margin_mm)]
     = Raise (TypeError "unexpected keyword argument margin_mm")) ∧
  (∀ printer dpi threads,
     is_ok (PrintServer.bind_keywords PrintServer.init_params
              [("printer_name", printer); ("dpi", dpi); ("threads", threads)])
     = true) ∧
  (∀ name, PrintServer.GetDefaultPrinter host = Ok name →
     ∃ status cfg run,
       PrintServer.print_pdf_async host (Some d)
       = (PrintServer.mkResponse 200 true,
          Some (status,
                [PrintServer.Constructed cfg; PrintServer.Printing run]))).
Proof.
  intros Hpath Hexists. split_and!.
  - by apply (sync_answers_500 host d file_path).
  - apply sync_constructor_raises.
  - apply async_binding_succeeds.
  - by apply (async_constructs host d file_path).
Qed.

Lemma sync_print_never_prints_witness :
  sample_body !! "file_path" = Some (PrintServer.VStr "C:/docs/report.pdf") ∧
  PrintServer.os_path_exists sample_host
    (PrintServer.VStr "C:/docs/report.pdf") = true ∧
  PrintServer.print_pdf sample_host (Some sample_body)
  = (PrintServer.mkResponse 500 false, []).
Proof.
  assert (sample_body !! "file_path"
          = Some (PrintServer.VStr "C:/docs/report.pdf")) as Hpath
    by (vm_compute; reflexivity).
  assert (PrintServer.os_path_exists sample_host
            (PrintServer.VStr "C:/docs/report.pdf") = true) as Hexists
    by (vm_compute; reflexivity).
  split_and!; [exact Hpath|exact Hexists|].
  apply (sync_print_never_prints sample_host sample_body
           (PrintServer.VStr "C:/docs/report.pdf") Hpath Hexists).
Defined.

(** ** The scaling step *)

(** The rectangle is centred whatever the scaled size is: the margins on
    both sides differ by at most one pixel.  This part of the placement
    is integer arithmetic; the scaled size itself comes from the float
    computation of [draw_rect]. *)
Lemma draw_rect_centred W H img x0 y0 x1 y1 :
  draw_rect W H img = Ok (x0, y0, x1, y1) →
  0 ≤ (W - x1) - x0 ≤ 1 ∧ 0 ≤ (H - y1) - y0 ≤ 1.
Proof.
  unfold draw_rect. destruct (size img) as [w h].
  destruct (true_div W w) as [sw|]; [|done].
  destruct (true_div H h) as [sh|]; [|done].
  destruct (scale_int w _) as [nw|]; [|done].
  destruct (scale_int h _) as [nh|]; [|done].
  intros [= <- <- <- <-].
  pose proof (Z.div_mod (W - nw) 2). pose proof (Z.mod_pos_bound (W - nw) 2).
  pose proof (Z.div_mod (H - nh) 2). pose proof (Z.mod_pos_bound (H - nh) 2).
  lia.
Qed.

(** A 300 dpi A4 page on a 600 dpi A4 surface: the height is the tighter
    side, the scale is exactly 2. *)
Example draw_rect_a4 :
  draw_rect 4961 7016 a4_page = Ok (0, 0, 4960, 7016).
Proof. vm_compute. reflexivity. Qed.

(** A landscape image on the same surface is centred vertically. *)
Example draw_rect_landscape :
  draw_rect 4961 7016 {| mode := "RGB"; size := (3508, 2480) |}
  = Ok (0, 1754, 4961, 5261).
Proof. vm_compute. reflexivity. Qed.

(** An image without width makes the division of line 192 raise. *)
Example draw_rect_empty_image :
  draw_rect 4961 7016 {| mode := "RGB"; size := (0, 3508) |}
  = Raise ZeroDivisionError.
Proof. vm_compute. reflexivity. Qed.

(** The float product can fall just short of the exact one: 305 pixels
    scaled by 4961/305 give 4960, not 4961. *)
Example draw_rect_rounding :
  draw_rect 4961 7016 {| mode := "RGB"; size := (305, 400) |}
  = Ok (0, 255, 4960, 6761).
Proof. vm_compute. reflexivity. Qed.

(** ** Where the items of a job end up *)

Section Provenance.
Variable env : Env.

Lemma from_arrivals_mono seen seen' w :
  (∀ item, item ∈ seen → item ∈ seen') →
  from_arrivals seen w → from_arrivals seen' w.
Proof. intros Hsub [Hh Hb]. split; eauto. Qed.

Lemma drain_from_arrivals seen fuel w s :
  from_arrivals seen w → from_arrivals seen (drain env fuel w s).1.
Proof.
  revert w s. induction fuel as [|fuel IH]; intros w s Hw; simpl; [done|].
  destruct (buffer w !! next_page w) as [img|] eqn:Hnext; [|done].
  apply IH. destruct Hw as [Hh Hb]. split; simpl.
  - intros item [Hin|Hin]%elem_of_app; [by apply Hh|].
    apply list_elem_of_singleton in Hin as ->. by apply Hb.
  - intros p img' Hp. apply lookup_delete_Some in Hp as [_ Hp]. by apply Hb.
Qed.

Lemma accept_from_arrivals seen ws item :
  from_arrivals seen ws.1 →
  from_arrivals (seen ++ [item]) (accept env ws item).1.
Proof.
  intros [Hh Hb]. unfold accept. apply drain_from_arrivals. split; simpl.
  - intros it Hit. apply elem_of_app. left. by apply Hh.
  - intros p img Hp. apply elem_of_app.
    apply lookup_insert_Some in Hp as [[<- <-]|[_ Hp]].
    + right. apply list_elem_of_singleton. by destruct item.
    + left. by apply Hb.
Qed.

Lemma foldl_accept_from_arrivals seen ws arrivals :
  from_arrivals seen ws.1 →
  from_arrivals (seen ++ arrivals) (foldl (accept env) ws arrivals).1.
Proof.
  revert seen ws. induction arrivals as [|item arrivals IH]; intros seen ws Hws.
  - simpl. by rewrite app_nil_r.
  - simpl.
    replace (seen ++ item :: arrivals) with ((seen ++ [item]) ++ arrivals)
      by (by rewrite <- app_assoc).
    apply IH, accept_from_arrivals, Hws.
Qed.

Lemma print_worker_from_arrivals arrivals s :
  from_arrivals arrivals (print_worker env arrivals s).1.
Proof.
  apply (foldl_accept_from_arrivals [] (new_worker, s) arrivals).
  split; simpl.
  - intros item Hin. by apply elem_of_nil in Hin.
  - intros p img Hp. by rewrite lookup_empty in Hp.
Qed.
End Provenance.

(** An item that reaches the print worker is the first image that
    [convert_from_path] returned for a scheduled page. *)
Lemma elem_of_arrivals_item doc schedule p img :
  (p, img) ∈ arrivals_of doc schedule →
  p ∈ schedule ∧ ∃ imgs, convert_from_path doc p = Ok (img :: imgs).
Proof.
  unfold arrivals_of. intros (q & Hq & Hconv)%list_elem_of_omap.
  unfold convert_job in Hconv.
  destruct (convert_from_path doc q) as [[|img' imgs]|e] eqn:Hcfp; [done| |done].
  injection Hconv as -> ->. eauto.
Qed.

Lemma NoDup_arrivals doc schedule :
  NoDup schedule → NoDup (arrivals_of doc schedule).*1.
Proof.
  induction 1 as [|q schedule Hq Hnd IH]; [constructor|].
  unfold arrivals_of in *. simpl.
  destruct (convert_job (convert_from_path doc) q) as [item|] eqn:Hconv;
    [|done].
  simpl. apply NoDup_cons. split; [|done].
  rewrite (convert_job_page _ _ _ Hconv).
  intros Hin. apply Hq.
  by apply (elem_of_arrivals doc schedule q) in Hin as [Hin _].
Qed.

(** X1. Whatever the device does and in whatever order the pages finish,
    an image handed to the emission routine under page number [p] is the
    first image that [convert_from_path] returned for page [p] itself:
    pages are never printed with another page's image. *)
Theorem handed_image_of_its_page (env : Env) (doc : Document)
    (schedule : list Z) (n p : Z) (img : Image) :
  path_exists doc = true →
  pdfinfo_pages doc = Ok n →
  (p, img) ∈ handed (print_pdf env doc schedule new_printer).1.2 →
  p ∈ schedule ∧ ∃ imgs, convert_from_path doc p = Ok (img :: imgs).
Proof.
  intros Hexists Hpages Hin.
  destruct (print_pdf_unfold env doc schedule n Hexists Hpages)
    as (s0 & _ & _ & _ & Hw & _).
  cbv zeta in Hw. rewrite Hw in Hin.
  destruct (print_worker_from_arrivals env (arrivals_of doc schedule) s0)
    as [Hh _].
  by apply elem_of_arrivals_item, Hh.
Qed.

Lemma handed_image_of_its_page_witness :
  (3, a4_page)
  ∈ handed (print_pdf a4_600dpi (document_failing 5 []) [3; 1; 5; 2; 4]
              new_printer).1.2 ∧
  ∃ imgs, convert_from_path (document_failing 5 []) 3 = Ok (a4_page :: imgs).
Proof.
  assert ((3, a4_page)
          ∈ handed (print_pdf a4_600dpi (document_failing 5 [])
                      [3; 1; 5; 2; 4] new_printer).1.2) as Hin.
  { vm_compute. do 2 apply list_elem_of_further. apply list_elem_of_here. }
  split; [exact Hin|].
  apply (handed_image_of_its_page a4_600dpi (document_failing 5 [])
           [3; 1; 5; 2; 4] 5 3 a4_page); [reflexivity|reflexivity|exact Hin].
Defined.

(** X2. The worker at the end of a job.  [next_page] stands at the first
    page that failed to convert (or after the last page when none
    failed); the pages before it were handed over, in order; and the
    buffer holds exactly the converted pages after it, which are never
    printed. *)
Theorem final_worker_state (env : Env) (doc : Document)
    (schedule : list Z) (n : Z) :
  path_exists doc = true →
  pdfinfo_pages doc = Ok n →
  0 ≤ n →
  admissible doc schedule →
  let w := (print_pdf env doc schedule new_printer).1.2 in
  let converts p := is_Some (convert_job (convert_from_path doc) p) in
  (next_page w = n + 1 ∨
   (1 ≤ next_page w ≤ n ∧ ¬ converts (next_page w))) ∧
  (handed w).*1 = seqZ 1 (next_page w - 1) ∧
  (∀ p, 1 ≤ p < next_page w → converts p) ∧
  (∀ p, is_Some (buffer w !! p) ↔ next_page w < p ≤ n ∧ converts p).
Proof.
  intros Hexists Hpages Hn Hadm.
  destruct (print_pdf_unfold env doc schedule n Hexists Hpages)
    as (s0 & _ & _ & _ & Hw & _).
  cbv zeta in *. rewrite Hw.
  pose proof (elem_of_schedule doc schedule n Hpages Hadm) as Hsched.
  destruct (print_worker_tracks env (arrivals_of doc schedule) s0)
    as [Hstart Hhanded Hbuf Hahead Hbehind].
  pose proof (print_worker_exits env (arrivals_of doc schedule) s0) as Hexit.
  assert (pending_ahead (print_worker env (arrivals_of doc schedule) s0).1)
    as Hpending.
  { apply print_worker_pending_ahead.
    - apply NoDup_arrivals. unfold admissible in Hadm. rewrite Hpages in Hadm.
      rewrite Hadm. apply NoDup_seqZ.
    - intros p Hp.
      destruct (proj1 (elem_of_arrivals doc schedule p) Hp) as [Hp' _].
      apply Hsched in Hp'. lia. }
  simpl in *.
  set (w := (print_worker env (arrivals_of doc schedule) s0).1) in *.
  assert (next_page w ∉ (arrivals_of doc schedule).*1) as Hout.
  { intros Hin. destruct (Hahead _ Hin) as [x Hx]; [lia|]. congruence. }
  split_and!.
  - destruct (decide (next_page w ≤ n)) as [Hle|Hgt].
    + right. split; [lia|]. intros Hconv. apply Hout, elem_of_arrivals.
      split; [|done]. apply Hsched. lia.
    + left. destruct (decide (next_page w = n + 1)) as [|Hne]; [done|].
      assert (n + 1 ∈ (arrivals_of doc schedule).*1) as Hin
        by (apply Hbehind; lia).
      destruct (proj1 (elem_of_arrivals doc schedule _) Hin) as [Hin' _].
      apply Hsched in Hin'. lia.
  - done.
  - intros p Hp. apply Hbehind in Hp.
    by destruct (proj1 (elem_of_arrivals doc schedule p) Hp) as [_ Hconv].
  - intros p. split.
    + intros Hp. pose proof (Hpending p Hp) as Hle.
      destruct (proj1 (elem_of_arrivals doc schedule p) (Hbuf p Hp))
        as [Hin Hconv].
      apply Hsched in Hin. split; [|done].
      destruct (decide (p = next_page w)) as [->|]; [|lia].
      destruct Hp as [x Hx]. congruence.
    + intros [Hp Hconv]. apply Hahead; [|lia].
      apply elem_of_arrivals. split; [|done]. apply Hsched. lia.
Qed.

Lemma final_worker_state_witness :
  let doc := document_failing 10 [7] in
  let schedule := [3; 1; 5; 2; 4; 10; 9; 8; 7; 6] in
  let w := (print_pdf a4_600dpi doc schedule new_printer).1.2 in
  admissible doc schedule ∧
  (handed w).*1 = seqZ 1 (next_page w - 1) ∧
  (is_Some (buffer w !! 9) ↔
   next_page w < 9 ≤ 10 ∧ is_Some (convert_job (convert_from_path doc) 9)).
Proof.
  intros doc schedule w.
  assert (admissible doc schedule) as Hadm.
  { unfold admissible. simpl.
    apply (bool_decide_unpack _). vm_compute. reflexivity. }
  split; [exact Hadm|].
  destruct (final_worker_state a4_600dpi doc schedule 10)
    as (_ & Hhanded & _ & Hbuffer).
  - reflexivity.
  - reflexivity.
  - lia.
  - exact Hadm.
  - split; [exact Hhanded|apply Hbuffer].
Defined.

(** ** The counters of the report *)

Lemma print_pdf_from_job_start env doc schedule n :
  path_exists doc = true →
  pdfinfo_pages doc = Ok n →
  let ws := print_worker env (arrivals_of doc schedule)
              (job_start doc schedule n) in
  let r := print_pdf env doc schedule new_printer in
  r.1.2 = ws.1 ∧
  r.2 = (final_close env (emit_all env (handed ws.1)
                            (job_start doc schedule n))).2 ∧
  r.1.1 = (if n =? 0 then Raised ZeroDivisionError
           else Completed (printed r.2) n).
Proof.
  intros Hexists Hpages. cbv zeta.
  unfold print_pdf. rewrite Hexists, Hpages. simpl.
  fold (job_start doc schedule n).
  pose proof (print_worker_emit_all env (arrivals_of doc schedule)
                (job_start doc schedule n)) as Hs.
  destruct (print_worker env (arrivals_of doc schedule)
              (job_start doc schedule n)) as [w s1].
  simpl in Hs. subst s1.
  assert (total (final_close env
                   (emit_all env (handed w) (job_start doc schedule n))).2 = n)
    as Htot by (by rewrite final_close_total, emit_all_total).
  rewrite Htot. by destruct (n =? 0).
Qed.

Lemma emit_page_counters env img page s :
  let s' := emit_page env img page s in
  converted s' = converted s ∧ printed s ≤ printed s' ≤ printed s + 1.
Proof.
  simpl. apply (wp_emit_page env img page s
    (λ s', converted s' = converted s ∧ printed s ≤ printed s' ≤ printed s + 1)).
  destruct s as [cv pr tot dc tr].
  repeat wp_step; split; (done || lia).
Qed.

Lemma emit_all_counters env items s :
  let s' := emit_all env items s in
  converted s' = converted s ∧
  printed s ≤ printed s' ≤ printed s + Z.of_nat (length items).
Proof.
  revert s. induction items as [|item items IH]; intros s; simpl.
  - split; [done|lia].
  - change (emit_all env (item :: items) s)
      with (emit_all env items (emit_page env item.2 item.1 s)).
    destruct (IH (emit_page env item.2 item.1 s)) as [Hc Hp].
    destruct (emit_page_counters env item.2 item.1 s) as [Hc' Hp'].
    simpl in *. split; [congruence|lia].
Qed.

Lemma final_close_counters env s :
  converted (final_close env s).2 = converted s ∧
  printed (final_close env s).2 = printed s.
Proof.
  apply (wp_state (final_close env) s
    (λ s', converted s' = converted s ∧ printed s' = printed s)).
  destruct s as [cv pr tot dc tr].
  by repeat wp_step.
Qed.

Lemma length_arrivals doc schedule :
  (length (arrivals_of doc schedule) ≤ length schedule)%nat.
Proof.
  unfold arrivals_of. generalize (convert_job (convert_from_path doc)).
  intros f. induction schedule as [|q schedule IH]; [done|].
  change (omap f (q :: schedule))
    with (match f q with Some y => y :: omap f schedule
                       | None => omap f schedule end).
  destruct (f q); simpl; lia.
Qed.

(** X3. The counters that the progress lines and the final report show
    are ordered: at the end of a job, 0 <= printed <= converted <= total.
    A page is counted as printed only after its conversion was counted,
    and no page is counted twice. *)
Theorem report_counters_ordered (env : Env) (doc : Document)
    (schedule : list Z) (n : Z) :
  path_exists doc = true →
  pdfinfo_pages doc = Ok n →
  0 ≤ n →
  admissible doc schedule →
  let r := print_pdf env doc schedule new_printer in
  0 ≤ printed r.2 ≤ converted r.2 ∧ converted r.2 ≤ total r.2 ∧ total r.2 = n.
Proof.
  intros Hexists Hpages Hn Hadm.
  destruct (print_pdf_from_job_start env doc schedule n Hexists Hpages)
    as (Hw & Hs & _).
  cbv zeta in *. rewrite Hs.
  set (arrivals := arrivals_of doc schedule) in *.
  set (s0 := job_start doc schedule n) in *.
  set (w := (print_worker env arrivals s0).1) in *.
  destruct (final_close_counters env (emit_all env (handed w) s0))
    as [-> ->].
  rewrite final_close_total, emit_all_total.
  destruct (emit_all_counters env (handed w) s0) as [-> Hprinted].
  change (converted s0) with (Z.of_nat (length arrivals)).
  change (printed s0) with 0 in Hprinted. change (total s0) with n.
  assert (length (handed w) ≤ length arrivals)%nat as Hlen.
  { rewrite <- (length_fmap fst (handed w)), <- (length_fmap fst arrivals).
    apply submseteq_length, NoDup_submseteq.
    - destruct (print_worker_tracks env arrivals s0) as [_ Hh _ _ _].
      fold w in Hh. rewrite Hh. apply NoDup_seqZ.
    - intros p (item & -> & Hitem)%list_elem_of_fmap.
      apply list_elem_of_fmap. exists item. split; [done|].
      by apply (print_worker_from_arrivals env arrivals s0). }
  pose proof (length_arrivals doc schedule) as Hlen'. fold arrivals in Hlen'.
  assert (length schedule = Z.to_nat n) as Hsched.
  { unfold admissible in Hadm. rewrite Hpages in Hadm. rewrite Hadm.
    unfold pages. apply length_seqZ. }
  lia.
Qed.

Lemma report_counters_ordered_witness :
  let doc := document_failing 10 [7] in
  let schedule := [3; 1; 5; 2; 4; 10; 9; 8; 7; 6] in
  let r := print_pdf (refusing [EndPage] 4961 7016) doc schedule
             new_printer in
  admissible doc schedule ∧
  0 ≤ printed r.2 ≤ converted r.2 ∧ converted r.2 ≤ total r.2.
Proof.
  intros doc schedule r.
  assert (admissible doc schedule) as Hadm.
  { unfold admissible. simpl.
    apply (bool_decide_unpack _). vm_compute. reflexivity. }
  split; [exact Hadm|].
  destruct (report_counters_ordered (refusing [EndPage] 4961 7016) doc
              schedule 10) as (Hp & Hc & _).
  - reflexivity.
  - reflexivity.
  - lia.
  - exact Hadm.
  - split; [exact Hp|exact Hc].
Defined.

(** ** Pages handed over after the device context is gone *)

Lemma emit_page_without_context env img page s :
  printer_dc s = None → page ≠ 1 →
  let s' := emit_page env img page s in
  printer_dc s' = None ∧ printed s' = printed s ∧
  converted s' = converted s ∧ total s' = total s ∧
  ∃ evs, trace s' = trace s ++ evs ∧
         Forall (λ e, ev_call e = PILConvert) evs.
Proof.
  intros Hdc Hpage. simpl.
  apply (wp_emit_page env img page s
    (λ s', printer_dc s' = None ∧ printed s' = printed s ∧
           converted s' = converted s ∧ total s' = total s ∧
           ∃ evs, trace s' = trace s ++ evs ∧
                  Forall (λ e, ev_call e = PILConvert) evs)).
  destruct s as [cv pr tot dc tr]. simpl in Hdc. subst dc.
  repeat wp_step; try lia;
    repeat split;
    first [ by exists []; rewrite app_nil_r
          | by eexists [_]; split; [done|repeat constructor] ].
Qed.

(** X4. Once the printer object holds no device context, every later
    page (any page number but 1) is dropped: it reaches no device call,
    it is not counted as printed, and the context stays absent.  The
    only library call such a page can still cause is the conversion of
    its image to RGB. *)
Theorem pages_without_context_dropped (env : Env)
    (items : list (Z * Image)) (s : Printer) :
  printer_dc s = None →
  Forall (λ item, item.1 ≠ 1) items →
  let s' := emit_all env items s in
  printer_dc s' = None ∧ printed s' = printed s ∧
  ∃ evs, trace s' = trace s ++ evs ∧
         Forall (λ e, ev_call e = PILConvert) evs.
Proof.
  intros Hdc Hitems. revert s Hdc.
  induction Hitems as [|item items Hitem _ IH]; intros s Hdc.
  - simpl. repeat split; try done. exists []. by rewrite app_nil_r.
  - change (emit_all env (item :: items) s)
      with (emit_all env items (emit_page env item.2 item.1 s)).
    destruct (emit_page_without_context env item.2 item.1 s Hdc Hitem)
      as (Hdc' & Hpr & _ & _ & evs & Htr & Hevs).
    destruct (IH _ Hdc') as (Hdc'' & Hpr' & evs' & Htr' & Hevs').
    cbv zeta. split; [done|]. split; [congruence|].
    exists (evs ++ evs'). split.
    + by rewrite Htr', Htr, app_assoc.
    + by apply Forall_app.
Qed.

Lemma pages_without_context_dropped_witness :
  let items := [(2, a4_page); (3, {| mode := "L"; size := (100, 100) |})] in
  let s' := emit_all a4_600dpi items new_printer in
  printed s' = 0 ∧ trace s' = [mkEvent PILConvert true].
Proof.
  intros items s'.
  destruct (pages_without_context_dropped a4_600dpi items new_printer)
    as (_ & Hpr & _).
  - reflexivity.
  - repeat constructor; simpl; lia.
  - split; [exact Hpr|vm_compute; reflexivity].
Defined.

(** ** A job in which every page converts and every call succeeds *)

Lemma job_markers_snoc s c ok :
  job_markers (set_trace (trace s ++ [mkEvent c ok]) s)
  = job_markers s ++ (if job_marker c then [c] else []).
Proof.
  unfold job_markers. simpl. rewrite fmap_app, List.filter_app. simpl.
  by destruct (job_marker c).
Qed.

Section Accepted.
Variable env : Env.
Variable n : Z.
Hypothesis Hacc : accepts_all env.

Lemma emit_page_accepted img page rect s :
  total s = n →
  page = 1 ∨ is_Some (printer_dc s) →
  draw_rect (device_caps env HORZRES) (device_caps env VERTRES) img
  = Ok rect →
  let s' := emit_page env img page s in
  printed s' = printed s + 1 ∧ total s' = n ∧
  printer_dc s' = (if page =? n then None else Some PyCDC) ∧
  List.filter job_marker (ev_call <$> trace s')
  = List.filter job_marker (ev_call <$> trace s)
    ++ (if page =? 1 then [StartDoc] else [])
    ++ [StartPage; Draw rect; EndPage]
    ++ (if page =? n then [EndDoc] else []) ∧
  (Forall (λ e, ev_ok e = true) (trace s) →
   Forall (λ e, ev_ok e = true) (trace s')).
Proof.
  intros Htot Hdc Hrect. simpl. apply wp_emit_page.
  destruct s as [cv pr tot dc tr]. simpl in Htot, Hdc. subst tot.
  assert (∀ tr c, accepts env tr c = false → False) as Hno
    by (intros tr' c Hc; rewrite Hacc in Hc; discriminate).
  repeat wp_step.
  all: try match goal with
           | Hc : accepts env _ _ = false |- _ => destruct (Hno _ _ Hc)
           end.
  all: try match goal with
           | Hr : draw_rect _ _ _ = _ |- _ =>
               rewrite ?draw_rect_convert_rgb in Hr; rewrite Hrect in Hr;
               simplify_eq
           end.
  all: repeat match goal with
              | Hb : (_ =? _) = true |- _ => apply Z.eqb_eq in Hb
              | Hb : (_ =? _) = false |- _ => apply Z.eqb_neq in Hb
              end.
  all: try (destruct Hdc as [?|[? ?]]; [lia|discriminate]).
  all: try match goal with d : DC |- _ => destruct d end.
  all: split_and!; try done.
  all: try (by rewrite !fmap_app, !List.filter_app; simpl;
               rewrite <- ?app_assoc).
  all: try (intros Hok; rewrite ?Forall_app; split_and!; try done;
            by repeat constructor).
Qed.

Variable image_of : Z → Image.
Variable rect : Z → Z * Z * Z * Z.
Hypothesis Hrect : ∀ p, 1 ≤ p ≤ n →
  draw_rect (device_caps env HORZRES) (device_caps env VERTRES) (image_of p)
  = Ok (rect p).

Lemma emit_all_accepted len k s :
  1 ≤ k → k + Z.of_nat (S len) = n + 1 →
  total s = n →
  k = 1 ∨ is_Some (printer_dc s) →
  let s' := emit_all env ((λ p, (p, image_of p))
                            <$> seqZ k (Z.of_nat (S len))) s in
  printed s' = printed s + Z.of_nat (S len) ∧ total s' = n ∧
  printer_dc s' = None ∧
  job_markers s'
  = job_markers s ++ (if k =? 1 then [StartDoc] else [])
    ++ flat_map (λ p, [StartPage; Draw (rect p); EndPage])
                (seqZ k (Z.of_nat (S len)))
    ++ [EndDoc] ∧
  (Forall (λ e, ev_ok e = true) (trace s) →
   Forall (λ e, ev_ok e = true) (trace s')).
Proof.
  revert k s. induction len as [|len IH]; intros k s Hk Hlen Htot Hdc.
  - assert (k = n) as -> by lia.
    change (seqZ n (Z.of_nat 1)) with [n]. cbv zeta.
    change (emit_all env ((λ p, (p, image_of p)) <$> [n]) s)
      with (emit_page env (image_of n) n s).
    destruct (emit_page_accepted (image_of n) n (rect n) s Htot Hdc)
      as (Hpr & Htot' & Hdc' & Hmk & Hok); [apply Hrect; lia|].
    rewrite Z.eqb_refl in Hdc', Hmk.
    split_and!; [lia|done|done| |done].
    unfold job_markers. rewrite Hmk. simpl.
    by rewrite <- ?app_assoc.
  - rewrite (seqZ_cons k) by lia.
    replace (Z.pred (Z.of_nat (S (S len)))) with (Z.of_nat (S len)) by lia.
    rewrite fmap_cons. cbv zeta.
    change (emit_all env ((k, image_of k)
                            :: ((λ p, (p, image_of p))
                                  <$> seqZ (Z.succ k) (Z.of_nat (S len)))) s)
      with (emit_all env ((λ p, (p, image_of p))
                            <$> seqZ (Z.succ k) (Z.of_nat (S len)))
              (emit_page env (image_of k) k s)).
    destruct (emit_page_accepted (image_of k) k (rect k) s Htot Hdc)
      as (Hpr & Htot' & Hdc' & Hmk & Hok); [apply Hrect; lia|].
    destruct (k =? n) eqn:Hkn; [apply Z.eqb_eq in Hkn; lia|].
    destruct (IH (Z.succ k) (emit_page env (image_of k) k s))
      as (Hpr2 & Htot2 & Hdc2 & Hmk2 & Hok2);
      [lia|lia|done|by right; rewrite Hdc'|].
    cbv zeta in *.
    destruct (Z.succ k =? 1) eqn:Hk1; [apply Z.eqb_eq in Hk1; lia|].
    split_and!; [lia|done|done| |by auto].
    rewrite Hmk2. unfold job_markers at 1. rewrite Hmk. simpl.
    by rewrite <- ?app_assoc.
Qed.
End Accepted.

Lemma list_of_keys {A} (l : list (Z * A)) (ps : list Z) (f : Z → A) :
  l.*1 = ps →
  (∀ p a, (p, a) ∈ l → a = f p) →
  l = (λ p, (p, f p)) <$> ps.
Proof.
  intros <- Hf. induction l as [|[p a] l IH]; [done|].
  simpl. rewrite (Hf p a) by apply list_elem_of_here.
  f_equal. apply IH. intros q b Hq. apply Hf. by apply list_elem_of_further.
Qed.

(** X5. A job in which every page converts and no call fails, for any
    completion order of the conversions: every page is printed, the
    report is "n/n", no call is refused, the device context is released,
    and the device sees one job, opened once, with the pages 1..n in
    page order, each between its StartPage and EndPage, and closed once
    after page n. *)
Theorem successful_job (env : Env) (doc : Document) (schedule : list Z)
    (n : Z) (image_of : Z → Image) (rect : Z → Z * Z * Z * Z) :
  accepts_all env →
  path_exists doc = true →
  pdfinfo_pages doc = Ok n →
  1 ≤ n →
  admissible doc schedule →
  (∀ p, 1 ≤ p ≤ n →
        ∃ imgs, convert_from_path doc p = Ok (image_of p :: imgs)) →
  (∀ p, 1 ≤ p ≤ n →
        draw_rect (device_caps env HORZRES) (device_caps env VERTRES)
          (image_of p) = Ok (rect p)) →
  let r := print_pdf env doc schedule new_printer in
  r.1.1 = Completed n n ∧
  job_markers r.2 = whole_job rect n ∧
  Forall (λ e, ev_ok e = true) (trace r.2) ∧
  printer_dc r.2 = None.
Proof.
  intros Hacc Hexists Hpages Hn Hadm Hconv Hrect.
  destruct (print_pdf_from_job_start env doc schedule n Hexists Hpages)
    as (Hw & Hs & Hout).
  cbv zeta in *.
  pose proof (elem_of_schedule doc schedule n Hpages Hadm) as Hsched.
  set (arrivals := arrivals_of doc schedule) in *.
  set (s0 := job_start doc schedule n) in *.
  set (w := (print_worker env arrivals s0).1) in *.
  assert (next_page w = n + 1) as Hnext.
  { apply next_page_is; [lia| |].
    - intros Hin.
      destruct (proj1 (elem_of_arrivals doc schedule _) Hin) as [Hin' _].
      apply Hsched in Hin'. lia.
    - intros p Hp. apply elem_of_arrivals. split; [apply Hsched; lia|].
      destruct (Hconv p) as [imgs Hp']; [lia|].
      unfold convert_job. by rewrite Hp'. }
  assert (handed w = (λ p, (p, image_of p)) <$> seqZ 1 (Z.of_nat (S (Z.to_nat (n - 1)))))
    as Hhanded.
  { apply list_of_keys.
    - destruct (print_worker_tracks env arrivals s0) as [_ Hh _ _ _].
      fold w in Hh. rewrite Hh, Hnext. f_equal. lia.
    - intros p img Hin.
      destruct (print_worker_from_arrivals env arrivals s0) as [Hfrom _].
      apply Hfrom, elem_of_arrivals_item in Hin as [Hp [imgs Himg]].
      apply Hsched in Hp. destruct (Hconv p Hp) as [imgs' Himg'].
      congruence. }
  destruct (emit_all_accepted env n Hacc image_of rect Hrect
              (Z.to_nat (n - 1)) 1 s0)
    as (Hpr & Htot & Hdc & Hmk & Hok); [lia|lia|done|by left|].
  cbv zeta in *. rewrite <- Hhanded in *.
  rewrite (final_close_none env _ Hdc) in Hs. simpl in Hs.
  rewrite Hs in *.
  destruct (n =? 0) eqn:Hn0; [apply Z.eqb_eq in Hn0; lia|].
  split_and!.
  - rewrite Hout. f_equal. rewrite Hpr. change (printed s0) with 0. lia.
  - replace (Z.of_nat (S (Z.to_nat (n - 1)))) with n in Hmk by lia.
    by rewrite Hmk.
  - apply Hok. constructor.
  - done.
Qed.

Lemma successful_job_witness :
  let doc := document_failing 3 [] in
  let r := print_pdf a4_600dpi doc [2; 3; 1] new_printer in
  r.1.1 = Completed 3 3 ∧
  job_markers r.2
  = [StartDoc;
     StartPage; Draw (0, 0, 4960, 7016); EndPage;
     StartPage; Draw (0, 0, 4960, 7016); EndPage;
     StartPage; Draw (0, 0, 4960, 7016); EndPage;
     EndDoc].
Proof.
  intros doc r.
  destruct (successful_job a4_600dpi doc [2; 3; 1] 3 (λ _, a4_page)
              (λ _, (0, 0, 4960, 7016))) as (Hout & Hmk & _).
  - intros tr c. reflexivity.
  - reflexivity.
  - reflexivity.
  - lia.
  - unfold admissible. simpl.
    apply (bool_decide_unpack _). vm_compute. reflexivity.
  - intros p Hp. exists []. reflexivity.
  - intros p Hp. vm_compute. reflexivity.
  - split; [exact Hout|exact Hmk].
Defined.

(** ** A document without pages *)

(** X6. A PDF for which [pdfinfo] reports no page: nothing is queued, so
    no image is handed over and no device or library call is made, the
    counters stay at zero, and after the report [print_pdf] raises
    ZeroDivisionError from the average of line 290 when the page count
    is 0 (a negative count yields the report alone). *)
Theorem empty_document (env : Env) (doc : Document) (schedule : list Z)
    (n : Z) :
  path_exists doc = true →
  pdfinfo_pages doc = Ok n →
  n ≤ 0 →
  admissible doc schedule →
  let r := print_pdf env doc schedule new_printer in
  r.1.1 = (if n =? 0 then Raised ZeroDivisionError else Completed 0 n) ∧
  handed r.1.2 = [] ∧ buffer r.1.2 = ∅ ∧
  trace r.2 = [] ∧ printed r.2 = 0 ∧ converted r.2 = 0.
Proof.
  intros Hexists Hpages Hn Hadm.
  assert (schedule = []) as ->.
  { unfold admissible in Hadm. rewrite Hpages in Hadm.
    apply Permutation_nil_r. rewrite Hadm. unfold pages, seqZ.
    by replace (Z.to_nat n) with 0%nat by lia. }
  destruct (print_pdf_from_job_start env doc [] n Hexists Hpages)
    as (Hw & Hs & Hout).
  cbv zeta in *.
  change (print_worker env (arrivals_of doc []) (job_start doc [] n))
    with (new_worker, job_start doc [] n) in *.
  change (emit_all env (handed (new_worker, job_start doc [] n).1)
            (job_start doc [] n)) with (job_start doc [] n) in Hs.
  rewrite final_close_none in Hs by done.
  rewrite Hout, Hw, Hs. simpl.
  by destruct (n =? 0).
Qed.

Lemma empty_document_witness :
  let doc := document_failing 0 [] in
  let r := print_pdf a4_600dpi doc [] new_printer in
  r.1.1 = Raised ZeroDivisionError ∧ trace r.2 = [].
Proof.
  intros doc r.
  destruct (empty_document a4_600dpi doc [] 0) as (Hout & _ & _ & Htr & _).
  - reflexivity.
  - reflexivity.
  - lia.
  - unfold admissible. simpl. reflexivity.
  - split; [exact Hout|exact Htr].
Defined.

(** ** Locating Ghostscript *)

Section FindGhostscript.
Import Ghostscript.
Variable host : Host.

Lemma scan_items_Some base_path items gs :
  scan_items host base_path items = Some gs →
  ∃ item exe, item ∈ items ∧ exe ∈ executables ∧
    gs = gs_path base_path item exe ∧ os_path_exists host gs = true ∧
    (exe = "gswin32c.exe" →
     os_path_exists host (gs_path base_path item "gswin64c.exe") = false).
Proof.
  induction items as [|item items IH]; [done|]. simpl.
  destruct (os_path_exists host (gs_path base_path item "gswin64c.exe"))
    eqn:H64.
  { intros [= <-]. exists item, "gswin64c.exe".
    split_and!; [left|left|done|done|done]. }
  destruct (os_path_exists host (gs_path base_path item "gswin32c.exe"))
    eqn:H32.
  { intros [= <-]. exists item, "gswin32c.exe".
    split_and!; [left|right; left|done|done|done]. }
  intros (item' & exe & Hitem & Hexe & -> & Hgs & H)%IH.
  exists item', exe. split_and!; [by right|done..].
Qed.

Lemma scan_items_None base_path items :
  scan_items host base_path items = None ↔
  ∀ item exe, item ∈ items → exe ∈ executables →
    os_path_exists host (gs_path base_path item exe) = false.
Proof.
  induction items as [|item items IH]; simpl.
  - split; [|done]. intros _ item exe Hin. by apply elem_of_nil in Hin.
  - destruct (os_path_exists host (gs_path base_path item "gswin64c.exe"))
      eqn:H64.
    { split; [done|]. intros Hall.
      rewrite Hall in H64; [done|left|left]. }
    destruct (os_path_exists host (gs_path base_path item "gswin32c.exe"))
      eqn:H32.
    { split; [done|]. intros Hall.
      rewrite Hall in H32; [done|left|right; left]. }
    rewrite IH. split.
    + intros Hall item' exe [->|Hin]%elem_of_cons Hexe; [|by apply Hall].
      unfold executables in Hexe.
      apply elem_of_cons in Hexe as [->|Hexe]; [done|].
      by apply list_elem_of_singleton in Hexe as ->.
    + intros Hall item' exe Hin. apply Hall. by right.
Qed.

Lemma scan_paths_Some paths gs :
  scan_paths host paths = Ok (Some gs) →
  ∃ base_path items item exe,
    base_path ∈ paths ∧ os_path_exists host base_path = true ∧
    os_listdir host base_path = Ok items ∧
    item ∈ items ∧ exe ∈ executables ∧
    gs = gs_path base_path item exe ∧ os_path_exists host gs = true ∧
    (exe = "gswin32c.exe" →
     os_path_exists host (gs_path base_path item "gswin64c.exe") = false).
Proof.
  induction paths as [|base_path paths IH]; [done|]. simpl.
  destruct (os_path_exists host base_path) eqn:Hbase.
  - destruct (os_listdir host base_path) as [items|e] eqn:Hlist; [|done].
    destruct (scan_items host base_path items) as [gs'|] eqn:Hscan.
    + intros [= <-].
      destruct (scan_items_Some _ _ _ Hscan)
        as (item & exe & ? & ? & ? & ? & ?).
      exists base_path, items, item, exe. split_and!; [left|done..].
    + intros (b & its & item & exe & ? & H)%IH.
      exists b, its, item, exe. split; [by right|done].
  - intros (b & its & item & exe & ? & H)%IH.
    exists b, its, item, exe. split; [by right|done].
Qed.

Lemma scan_paths_None paths :
  scan_paths host paths = Ok None ↔
  ∀ base_path, base_path ∈ paths → os_path_exists host base_path = true →
    ∃ items, os_listdir host base_path = Ok items ∧
      ∀ item exe, item ∈ items → exe ∈ executables →
        os_path_exists host (gs_path base_path item exe) = false.
Proof.
  induction paths as [|base_path paths IH]; simpl.
  - split; [|done]. intros _ b Hin. by apply elem_of_nil in Hin.
  - destruct (os_path_exists host base_path) eqn:Hbase.
    + destruct (os_listdir host base_path) as [items|e] eqn:Hlist.
      * destruct (scan_items host base_path items) as [gs|] eqn:Hscan.
        -- split; [done|]. intros Hall.
           destruct (Hall base_path) as (items' & Hitems' & Hnone);
             [left|done|].
           rewrite Hlist in Hitems'. injection Hitems' as <-.
           apply scan_items_None in Hnone. congruence.
        -- rewrite IH. split.
           ++ intros Hall b [->|Hin]%elem_of_cons Hb; [|by apply Hall].
              exists items. split; [done|]. by apply scan_items_None.
           ++ intros Hall b Hin. apply Hall. by right.
      * split; [done|]. intros Hall.
        destruct (Hall base_path) as (items' & Hitems' & _); [left|done|].
        congruence.
    + rewrite IH. split.
      * intros Hall b [->|Hin]%elem_of_cons Hb; [congruence|].
        by apply Hall.
      * intros Hall b Hin. apply Hall. by right.
Qed.

(** X7. What [find_ghostscript] returns can be run: either the bare
    command "gswin64c", which has just answered [--version] with return
    code 0, or the path of an executable that exists, of the form
    base\entry\bin\gswin64c.exe or base\entry\bin\gswin32c.exe for one
    of the two install directories and one of its entries; and the
    32-bit executable of an entry is returned only when that entry has
    no 64-bit one. *)
Theorem find_ghostscript_sound (gs : string) :
  find_ghostscript host = Ok (Some gs) →
  (gs = "gswin64c" ∧ run_version host = Ok 0 ∧
   scan_paths host possible_paths = Ok None) ∨
  (∃ base_path items item exe,
     base_path ∈ possible_paths ∧ os_path_exists host base_path = true ∧
     os_listdir host base_path = Ok items ∧
     item ∈ items ∧ exe ∈ executables ∧
     gs = gs_path base_path item exe ∧ os_path_exists host gs = true ∧
     (exe = "gswin32c.exe" →
      os_path_exists host (gs_path base_path item "gswin64c.exe") = false)).
Proof.
  unfold find_ghostscript.
  destruct (scan_paths host possible_paths) as [[gs'|]|e] eqn:Hscan; [| |done].
  - intros [= <-]. right. by apply scan_paths_Some.
  - destruct (run_version host) as [[| |]|]; try done.
    intros [= <-]. by left.
Qed.

(** X8. [find_ghostscript] reports that there is no Ghostscript (and the
    module exits) exactly when every install directory that exists can
    be listed and none of its entries holds one of the two executables,
    and the bare command did not answer with return code 0; it raises
    only what [os.listdir] raises. *)
Theorem find_ghostscript_none :
  find_ghostscript host = Ok None ↔
  (∀ base_path, base_path ∈ possible_paths →
     os_path_exists host base_path = true →
     ∃ items, os_listdir host base_path = Ok items ∧
       ∀ item exe, item ∈ items → exe ∈ executables →
         os_path_exists host (gs_path base_path item exe) = false) ∧
  run_version host ≠ Ok 0.
Proof.
  rewrite <- scan_paths_None. unfold find_ghostscript.
  destruct (scan_paths host possible_paths) as [[gs'|]|e] eqn:Hscan.
  - split; [done|]. by intros [? _].
  - destruct (run_version host) as [[| |]|]; split; try done.
    by intros [_ ?].
  - split; [done|]. by intros [? _].
Qed.
End FindGhostscript.

Lemma find_ghostscript_sound_witness :
  Ghostscript.find_ghostscript Ghostscript.sample_host
  = Ok (Some "C:\Program Files (x86)\gs\gs10.02.1\bin\gswin32c.exe") ∧
  Ghostscript.os_path_exists Ghostscript.sample_host
    "C:\Program Files (x86)\gs\gs10.02.1\bin\gswin64c.exe" = false.
Proof.
  assert (Ghostscript.find_ghostscript Ghostscript.sample_host
          = Ok (Some "C:\Program Files (x86)\gs\gs10.02.1\bin\gswin32c.exe"))
    as Hfound by (vm_compute; reflexivity).
  split; [exact Hfound|].
  destruct (find_ghostscript_sound Ghostscript.sample_host _ Hfound)
    as [(Hgs & _)|(b & items & item & exe & _ & _ & _ & _ & _ & _ & _ & _)].
  - discriminate Hgs.
  - vm_compute. reflexivity.
Defined.

(** ** The answers of the HTTP handlers *)

Lemma requested_file_None d :
  bool_decide (d = ∅) = true →
  (d : gmap string PrintServer.Value) !! "file_path" = None.
Proof. intros ->%bool_decide_eq_true. apply lookup_empty. Qed.

(** X9. Both POST handlers reject alike.  For a request whose body is
    the JSON value null or a JSON object of nulls, booleans, integers
    and strings in which file_path, when present, is a string: both
    answer 400 exactly when the body is null, is the empty object or has
    no file_path, and 404 exactly when file_path names a file that does
    not exist, and in neither case is a printer built or a job started.
    For every other such request /print-async answers 200 and starts a
    job while /print answers 500 without building a printer. *)
Theorem request_validation (host : PrintServer.Host)
    (data : option (gmap string PrintServer.Value)) :
  (∀ v, requested_file data = Some v → ∃ path, v = PrintServer.VStr path) →
  let sync := PrintServer.print_pdf host data in
  let async := PrintServer.print_pdf_async host data in
  match requested_file data with
  | None =>
      PrintServer.status sync.1 = 400 ∧ PrintServer.status async.1 = 400 ∧
      sync.2 = [] ∧ async.2 = None
  | Some file_path =>
      if PrintServer.os_path_exists host file_path
      then PrintServer.status sync.1 = 500 ∧ sync.2 = [] ∧
           PrintServer.status async.1 = 200 ∧ is_Some async.2
      else PrintServer.status sync.1 = 404 ∧
           PrintServer.status async.1 = 404 ∧
           sync.2 = [] ∧ async.2 = None
  end.
Proof.
  intros _. cbv zeta.
  unfold requested_file, PrintServer.print_pdf, PrintServer.print_pdf_async.
  destruct data as [d|]; simpl; [|done].
  destruct (bool_decide (d = ∅)) eqn:Hempty.
  { by rewrite (requested_file_None d Hempty). }
  destruct (d !! "file_path") as [file_path|]; [|done].
  destruct (PrintServer.os_path_exists host file_path); simpl; [|done].
  split_and!; [done..|eauto].
Qed.

Lemma request_validation_witness :
  PrintServer.status (PrintServer.print_pdf sample_host (Some sample_body)).1
  = 500 ∧
  PrintServer.status
    (PrintServer.print_pdf_async sample_host (Some sample_body)).1 = 200.
Proof.
  pose proof (request_validation sample_host (Some sample_body)) as H.
  assert (requested_file (Some sample_body)
          = Some (PrintServer.VStr "C:/docs/report.pdf")) as Hfile
    by (vm_compute; reflexivity).
  rewrite Hfile in H. cbv zeta in H.
  change (PrintServer.os_path_exists sample_host
            (PrintServer.VStr "C:/docs/report.pdf")) with true in H.
  destruct H as (Hsync & _ & Hasync & _).
  - intros v [= <-]. by eexists.
  - split; [exact Hsync|exact Hasync].
Defined.





(** ** The job table of the print server *)

Section JobTable.
Import JobStore.
Variable host : PrintServer.Host.

Lemma print_pdf_async_cases now started data srv :
  (∃ code, code ≠ 200 ∧
     print_pdf_async host now started data srv
     = (PrintServer.mkResponse code false, None, srv)) ∨
  (∃ id file_path printer dpi threads_,
     job_id now = Ok id ∧ requested_file data = Some file_path ∧
     print_pdf_async host now started data srv
     = (PrintServer.mkResponse 200 true, Some id,
        {| active_jobs :=
             <[id := {| job_status := st_queued; job_file := file_path;
                        started_at := started; job_error := None |}]>
               (active_jobs srv);
           threads := threads srv
             ++ [{| thread_job := id; thread_printer := printer;
                    thread_dpi := dpi; thread_threads := threads_;
                    thread_file := file_path; pc := Spawned |}] |})).
Proof.
  unfold print_pdf_async, requested_file.
  destruct data as [d|]; simpl; [|left; by exists 400].
  destruct (bool_decide (d = ∅)); [left; by exists 400|].
  destruct (d !! "file_path") as [file_path|]; [|left; by exists 400].
  destruct (PrintServer.os_path_exists host file_path); simpl;
    [|left; by exists 404].
  destruct (job_id now) as [id|e]; [|left; by exists 500].
  right. by eexists _, _, _, _, _.
Qed.

Lemma thread_step_job th jobs :
  thread_job (thread_step host th jobs).1 = thread_job th.
Proof.
  unfold thread_step.
  destruct (pc th); try done; by destruct (update_job _ _ _).
Qed.

Lemma update_job_keys id f jobs jobs' k :
  update_job id f jobs = Some jobs' →
  is_Some (jobs' !! k) ↔ is_Some (jobs !! k).
Proof.
  unfold update_job. destruct (jobs !! id) as [j|] eqn:Hj; [|done].
  intros [= <-]. destruct (decide (id = k)) as [<-|Hne].
  - rewrite lookup_insert_eq, Hj. split; eauto.
  - by rewrite lookup_insert_ne.
Qed.

Lemma thread_step_keys th jobs k :
  is_Some ((thread_step host th jobs).2 !! k) ↔ is_Some (jobs !! k).
Proof.
  unfold thread_step.
  destruct (pc th); try done;
    match goal with
    | |- context [update_job ?i ?f ?m] =>
        destruct (update_job i f m) as [jobs'|] eqn:Hup; [|done]
    end; simpl; by apply (update_job_keys _ _ _ _ _ Hup).
Qed.

Lemma step_table_ok sa a : table_ok sa → table_ok (step host sa a).
Proof.
  destruct sa as [srv answers]. intros [Hth Hans].
  destruct a as [now started data|i]; simpl.
  - destruct (print_pdf_async_cases now started data srv)
      as [(code & Hcode & ->)|(id & f & p & dp & t & _ & _ & ->)]; simpl.
    + split; [done|]. intros resp id [Hin|Hin]%elem_of_app; [by eauto|].
      by apply list_elem_of_singleton in Hin.
    + split.
      * intros th [Hin|Hin]%elem_of_app.
        -- destruct (Hth th Hin) as [Hpc Hjob]. split; [done|].
           simpl in *. destruct (decide (id = thread_job th)) as [<-|Hne].
           ++ rewrite lookup_insert_eq. eauto.
           ++ by rewrite lookup_insert_ne.
        -- apply list_elem_of_singleton in Hin as ->. simpl.
           split; [done|]. rewrite lookup_insert_eq. eauto.
      * intros resp id' [Hin|Hin]%elem_of_app.
        -- simpl in *. destruct (decide (id = id')) as [<-|Hne].
           ++ rewrite lookup_insert_eq. eauto.
           ++ rewrite lookup_insert_ne by done. by eauto.
        -- apply list_elem_of_singleton in Hin. simplify_eq. simpl.
           rewrite lookup_insert_eq. eauto.
  - destruct (threads srv !! i) as [th|] eqn:Hi; [|done]. simpl in *.
    destruct (Hth th) as [Hpc Hjob]; [by eapply list_elem_of_lookup_2|].
    split; simpl.
    + intros th' Hin. rewrite thread_step_keys.
      apply list_elem_of_lookup_1 in Hin as [k Hk].
      apply list_lookup_insert_Some in Hk as [(-> & <- & Hlt)|[Hne Hk]].
      * rewrite thread_step_job. split; [|done].
        unfold thread_step, update_job. destruct Hjob as [j Hj].
        destruct (pc th) eqn:Hpcth; rewrite ?Hj; simpl; congruence.
      * apply Hth. by eapply list_elem_of_lookup_2.
    + intros resp id Hin. rewrite thread_step_keys. by eauto.
Qed.

Lemma run_table_ok actions : table_ok (run host actions).
Proof.
  unfold run. induction actions as [|a actions IH] using rev_ind.
  - split; simpl; intros *; intros Hin; by apply elem_of_nil in Hin.
  - rewrite foldl_snoc. by apply step_table_ok.
Qed.

(** X11. The job table never loses a job.  After any sequence of
    requests and any interleaving of the background threads, a job id
    that was handed out is still answered by GET /job/<id> with 200 and
    an entry, every thread finds the entry of its job (no KeyError ends
    a thread), whatever the clock showed and whether or not job ids
    collided. *)
Theorem issued_job_stays_known (actions : list Action) :
  let srv := (run host actions).1 in
  (∀ resp id, (resp, Some id) ∈ (run host actions).2 →
     ∃ j, get_job_status id srv = (PrintServer.mkResponse 200 true, Some j)) ∧
  (∀ th, th ∈ threads srv → pc th ≠ Crashed).
Proof.
  destruct (run_table_ok actions) as [Hth Hans]. cbv zeta. split.
  - intros resp id Hin. destruct (Hans resp id Hin) as [j Hj].
    exists j. unfold get_job_status. by rewrite Hj.
  - intros th Hin. by destruct (Hth th Hin).
Qed.

Lemma job_id_inj now1 now2 id1 id2 :
  job_id now1 = Ok id1 → job_id now2 = Ok id2 →
  id1 = id2 ↔ millis now1 = millis now2.
Proof.
  unfold job_id.
  destruct (millis now1) as [ms1|e1]; [|done].
  destruct (millis now2) as [ms2|e2]; [|done].
  intros [= <-] [= <-]. split.
  - intros Heq. apply (inj (String.app "job_")) in Heq.
    by apply (inj pretty) in Heq as ->.
  - by intros [= ->].
Qed.

(** X12. Job ids are the millisecond of the request.  Two accepted
    requests get the same job id exactly when the clock, in whole
    milliseconds, read the same for both; then the second request
    replaces the entry of the first, whose file is no longer on record,
    while with different ids the first entry is untouched. *)
Theorem job_ids_by_millisecond (srv srv1 srv2 : Server)
    (now1 started1 now2 started2 : float)
    (data1 data2 : option (gmap string PrintServer.Value))
    (r1 r2 : PrintServer.Response) (id1 id2 : string) :
  print_pdf_async host now1 started1 data1 srv = (r1, Some id1, srv1) →
  print_pdf_async host now2 started2 data2 srv1 = (r2, Some id2, srv2) →
  (id1 = id2 ↔ millis now1 = millis now2) ∧
  (id1 = id2 →
   job_file <$> active_jobs srv2 !! id1 = requested_file data2) ∧
  (id1 ≠ id2 →
   job_file <$> active_jobs srv2 !! id1 = requested_file data1).
Proof.
  intros H1 H2.
  destruct (print_pdf_async_cases now1 started1 data1 srv)
    as [(code & _ & Hr)|(i1 & f1 & p1 & d1 & t1 & Hid1 & Hf1 & Hr)];
    rewrite Hr in H1; [done|].
  destruct (print_pdf_async_cases now2 started2 data2 srv1)
    as [(code & _ & Hr')|(i2 & f2 & p2 & d2 & t2 & Hid2 & Hf2 & Hr')];
    rewrite Hr' in H2; [done|].
  injection H1 as _ -> <-. injection H2 as _ -> <-. simpl.
  split; [by apply job_id_inj|]. split.
  - intros ->. by rewrite lookup_insert_eq, Hf2.
  - intros Hne. rewrite lookup_insert_ne by done.
    by rewrite lookup_insert_eq, Hf1.
Qed.




End JobTable.

Lemma job_ids_by_millisecond_witness :
  let t1 := 1762214400.125%float in
  let t2 := 1762214400.12548828125%float in
  let r1 := JobStore.print_pdf_async sample_host t1 t1 (Some sample_body)
              JobStore.new_server in
  let r2 := JobStore.print_pdf_async sample_host t2 t2
              (Some sample_body) r1.2 in
  r1.1.2 = Some "job_1762214400125" ∧ r2.1.2 = Some "job_1762214400125" ∧
  JobStore.millis t1 = JobStore.millis t2.
Proof.
  intros t1 t2 r1 r2.
  assert (r1 = (r1.1.1, Some "job_1762214400125", r1.2)) as H1
    by (vm_compute; reflexivity).
  assert (r2 = (r2.1.1, Some "job_1762214400125", r2.2)) as H2
    by (vm_compute; reflexivity).
  destruct (job_ids_by_millisecond sample_host _ _ _ _ _ _ _ _ _ _ _ _ _
              H1 H2) as (Hiff & _).
  split; [by rewrite H1|]. split; [by rewrite H2|].
  by apply Hiff.
Defined.


(** ** The control panel *)

Section Panel.
Import ControlPanel.

Lemma step_idle (q : Panel) (a : Action) :
  is_running q = false → start_button q = DISABLED → starting q = 0%nat →
  is_close a = false → step q a = q.
Proof.
  intros Hrun Hstart Hnone Ha. unfold step.
  destruct (window_open q); [|done]. simpl.
  destruct a as [|e|e|e]; try done.
  - by rewrite Hstart.
  - destruct (stop_button q); [|done].
    unfold stop_servers. by rewrite Hrun.
  - by rewrite Hnone.
Qed.

Lemma foldl_step_idle (q : Panel) (actions : list Action) :
  is_running q = false → start_button q = DISABLED → starting q = 0%nat →
  Forall (λ a, is_close a = false) actions →
  foldl step q actions = q.
Proof.
  intros Hrun Hstart Hnone. induction 1 as [|a actions Ha _ IH]; [done|].
  simpl. by rewrite (step_idle q a).
Qed.

(** X14. A start that fails after the checks leaves the panel frozen.
    When the print server, or after it the bot, has exited by the time
    it is polled, the start thread returns without touching the panel:
    the label stays on Starting, START stays disabled, and since
    [is_running] is not set STOP does nothing.  No click brings the
    panel out of this state, and closing the window stops no child. *)
Theorem failed_start_freezes_panel (p : Panel) (e : Startup)
    (actions : list Action) :
  startable p →
  python_found e = true → npm_found e = true → dist_exists e = true →
  server_created e = true →
  server_up e = false ∨ (bot_created e = true ∧ bot_up e = false) →
  let p' := step (step p ClickStart) (StartThread e) in
  status_label p' = Starting ∧ start_button p' = DISABLED ∧
  stop_button p' = NORMAL ∧ is_running p' = false ∧
  (Forall (λ a, is_close a = false) actions →
   foldl step p' actions = p') ∧
  (∀ sh, step p' (CloseWindow sh) = destroy p').
Proof.
  intros (Hopen & Hstart & Hrun & Hnone) Hpy Hnpm Hdist Hsrv Hfail.
  destruct p as [run psp bot sb pb st win n sp al]. simpl in *. subst.
  assert (let p' := step (step (mkPanel false psp bot NORMAL pb st true 0 sp al)
                            ClickStart) (StartThread e) in
          status_label p' = Starting ∧ start_button p' = DISABLED ∧
          stop_button p' = NORMAL ∧ is_running p' = false ∧
          starting p' = 0%nat ∧ window_open p' = true) as Hp'.
  { unfold step, start_servers, start_servers_thread. simpl.
    rewrite Hpy, Hnpm, Hdist, Hsrv. simpl.
    destruct Hfail as [->|[-> ->]]; simpl; [done|].
    by destruct (server_up e). }
  cbv zeta in *.
  destruct Hp' as (Hst & Hsb & Hpb & Hrun & Hnone & Hwin).
  split_and!; try done.
  - by apply foldl_step_idle.
  - intros sh. unfold step at 1. rewrite Hwin. simpl.
    unfold on_closing. by rewrite Hrun.
Qed.

Lemma failed_start_freezes_panel_witness :
  let p' := step (step new_panel ClickStart) (StartThread bot_dies) in
  status_label p' = Starting ∧ start_button p' = DISABLED ∧
  foldl step p' [ClickStop clean_stop; ClickStart; StartThread all_up;
                 ClickStop clean_stop] = p' ∧
  alive (step p' (CloseWindow clean_stop)) = [(0%nat, print_server)].
Proof.
  intros p'.
  destruct (failed_start_freezes_panel new_panel bot_dies
              [ClickStop clean_stop; ClickStart; StartThread all_up;
               ClickStop clean_stop])
    as (Hst & Hsb & _ & _ & Hfrozen & Hclose).
  - repeat split.
  - reflexivity.
  - reflexivity.
  - reflexivity.
  - reflexivity.
  - right. split; reflexivity.
  - split; [exact Hst|]. split; [exact Hsb|]. split.
    + apply Hfrozen. repeat constructor.
    + unfold p'. rewrite (Hclose clean_stop). reflexivity.
Defined.

Lemma forget_fresh (h : nat) (children : list (nat * Child)) :
  (∀ h' c, (h', c) ∈ children → (h' < h)%nat) →
  forget h children = children.
Proof.
  intros Hfresh. unfold forget.
  induction children as [|[h' c] children IH]; [done|]. simpl.
  assert (h' < h)%nat as Hlt by (apply (Hfresh h' c); left).
  destruct (Nat.eqb_spec h' h) as [->|_]; [lia|]. simpl.
  f_equal. apply IH. intros h'' c' Hin. apply (Hfresh h'' c'). by right.
Qed.

Lemma forget_snoc_same (h : nat) (c : Child) (children : list (nat * Child)) :
  forget h (children ++ [(h, c)]) = forget h children.
Proof.
  unfold forget. rewrite List.filter_app. simpl.
  rewrite Nat.eqb_refl. simpl. by rewrite app_nil_r.
Qed.

Lemma forget_snoc_other (h h' : nat) (c : Child)
    (children : list (nat * Child)) :
  h' ≠ h →
  forget h (children ++ [(h', c)]) = forget h children ++ [(h', c)].
Proof.
  intros Hne. unfold forget. rewrite List.filter_app. simpl.
  by destruct (Nat.eqb_spec h' h).
Qed.

(** X15. Start, then stop.  From a panel on which START can be clicked,
    a start in which both children come up makes the panel Running with
    the two new children alive; a STOP in which no [kill] raises then
    stops exactly these two, drops both handles and leaves a panel on
    which START can be clicked again, with the children that were alive
    before untouched. *)
Theorem start_then_stop (p : Panel) (e : Startup) (sh : Shutdown) :
  startable p → handles_known p →
  server_comes_up e → bot_created e = true → bot_up e = true →
  server_stop sh ≠ kill_raised → bot_stop sh ≠ kill_raised →
  let p1 := step (step p ClickStart) (StartThread e) in
  let p2 := step p1 (ClickStop sh) in
  (is_running p1 = true ∧ status_label p1 = Running ∧
   start_button p1 = DISABLED ∧ stop_button p1 = NORMAL ∧
   alive p1 = alive p ++ [(spawned p, print_server);
                          (S (spawned p), whatsapp_bot)]) ∧
  (startable p2 ∧ status_label p2 = Stopped ∧ stop_button p2 = DISABLED ∧
   print_server_process p2 = None ∧ whatsapp_bot_process p2 = None ∧
   alive p2 = alive p).
Proof.
  intros (Hopen & Hstart & Hrun & Hnone) Hknown
         (Hpy & Hnpm & Hdist & Hsrv & Hup) Hbot Hbotup Hs Hb.
  destruct p as [run psp bot sb pb st win n sp al]. simpl in *. subst.
  destruct e as [py npm dist srv up botc botu]. simpl in *. subst.
  unfold handles_known in Hknown. simpl in Hknown.
  cbv zeta. unfold step, start_servers, start_servers_thread. simpl.
  split; [by rewrite <- app_assoc|].
  unfold stop_servers, stop_child, startable. simpl.
  assert (forget (S sp) (forget sp ((al ++ [(sp, print_server)])
                                      ++ [(S sp, whatsapp_bot)])) = al)
    as Hal.
  { rewrite (forget_snoc_other sp (S sp)) by lia.
    rewrite (forget_snoc_same sp), (forget_fresh sp al) by done.
    rewrite (forget_snoc_same (S sp)). apply forget_fresh.
    intros h c Hin. specialize (Hknown h c Hin). lia. }
  destruct sh as [[] []]; simpl in *; try done; by rewrite Hal.
Qed.

Lemma start_then_stop_witness :
  let p1 := step (step new_panel ClickStart) (StartThread all_up) in
  let p2 := step p1 (ClickStop clean_stop) in
  status_label p1 = Running ∧ status_label p2 = Stopped ∧ alive p2 = [].
Proof.
  intros p1 p2.
  destruct (start_then_stop new_panel all_up clean_stop)
    as ((_ & Hst1 & _) & (_ & Hst2 & _ & _ & _ & Hal)).
  - repeat split.
  - intros h c Hin. by apply elem_of_nil in Hin.
  - repeat split.
  - reflexivity.
  - reflexivity.
  - discriminate.
  - discriminate.
  - split; [exact Hst1|]. split; [exact Hst2|exact Hal].
Defined.

Lemma elem_of_forget (h h' : nat) (c : Child)
    (children : list (nat * Child)) :
  (h, c) ∈ children → h' ≠ h → (h, c) ∈ forget h' children.
Proof.
  intros Hin Hne. unfold forget.
  apply list_elem_of_In, List.filter_In. split; [by apply list_elem_of_In|].
  simpl. by destruct (Nat.eqb_spec h h') as [->|_].
Qed.

Lemma step_orphan (h : nat) (q : Panel) (a : Action) :
  orphan h q → orphan h (step q a).
Proof.
  unfold orphan, step.
  destruct q as [run psp bot sb pb st win n sp al]. simpl.
  intros (Hin & Hlt & Hrun).
  assert (∀ h', h' ≠ h → (h, print_server) ∈ forget h' al) as Hkeep
    by (intros h' Hne; by apply elem_of_forget).
  assert (∀ h' h'', h' ≠ h → h'' ≠ h →
            (h, print_server) ∈ forget h'' (forget h' al)) as Hkeep2
    by (intros h' h'' Hne Hne'; apply elem_of_forget;
        [by apply elem_of_forget|done]).
  destruct win; simpl; [|done].
  destruct a as [|e|e|e].
  - destruct sb; [|done]. unfold start_servers. simpl. by destruct run.
  - destruct pb; [|done]. unfold stop_servers, stop_child. simpl.
    destruct run; simpl; [|done].
    destruct Hrun as [Hpsp Hbot]; [done|].
    destruct psp as [hs|], bot as [hb|], (server_stop e), (bot_stop e);
      simpl; split_and!; try done; try (intros _; split; congruence);
      try (intros [=]);
      first [ apply Hkeep2; congruence | apply Hkeep; congruence ].
  - destruct n as [|n]; [done|].
    unfold start_servers_thread, launched, show_error, spawn, show_running.
    simpl.
    destruct e as [[] [] [] [] [] [] []]; simpl;
      split_and!; try done; try lia;
      rewrite ?elem_of_app; try tauto;
      intros Hr; try specialize (Hrun Hr);
      split; try tauto; intros [= Heq]; lia.
  - unfold on_closing, stop_servers, stop_child. simpl.
    destruct run; simpl; [|done].
    destruct Hrun as [Hpsp Hbot]; [done|].
    destruct psp as [hs|], bot as [hb|], (server_stop e), (bot_stop e);
      simpl; split_and!; try done; try (intros _; split; congruence);
      try (intros [=]);
      first [ apply Hkeep2; congruence | apply Hkeep; congruence ].
Qed.

(** X16. A print server whose bot did not come up is never stopped by
    the panel.  When the print server has started and the bot could not
    be created or has exited, the panel does not believe anything runs,
    and from then on nothing the user does makes the panel stop that
    print server: not STOP, not a later start and stop that succeed, and
    not closing the window (each start thread running to its end before
    the next click is handled). *)
Theorem orphaned_print_server (p : Panel) (e : Startup)
    (actions : list Action) :
  startable p →
  server_comes_up e →
  bot_created e = false ∨ bot_up e = false →
  let p' := step (step p ClickStart) (StartThread e) in
  is_running p' = false ∧
  (spawned p, print_server) ∈ alive (foldl step p' actions).
Proof.
  intros (Hopen & Hstart & Hrun & Hnone)
         (Hpy & Hnpm & Hdist & Hsrv & Hup) Hbot.
  destruct p as [run psp bot sb pb st win n sp al]. simpl in *. subst.
  destruct e as [py npm dist srv up botc botu]. simpl in *. subst.
  cbv zeta.
  assert (let p' := step (step (mkPanel false psp bot NORMAL pb st true 0 sp al)
                            ClickStart)
                      (StartThread (mkStartup true true true true true
                                      botc botu)) in
          is_running p' = false ∧ orphan sp p') as [Hrun Horphan].
  { unfold orphan, step, start_servers, start_servers_thread. simpl.
    destruct Hbot as [->| ->]; [|destruct botc]; simpl;
      (split; [done|]); split_and!; try done; try lia;
      rewrite ?elem_of_app, ?list_elem_of_singleton; tauto. }
  split; [done|].
  assert (orphan sp (foldl step
            (step (step (mkPanel false psp bot NORMAL pb st true 0 sp al)
                     ClickStart)
               (StartThread (mkStartup true true true true true botc botu)))
            actions)) as (Hin & _).
  { induction actions as [|a actions IH] using rev_ind; [done|].
    rewrite foldl_snoc. by apply step_orphan. }
  done.
Qed.

Lemma orphaned_print_server_witness :
  let p' := step (step new_panel ClickStart) (StartThread bot_missing) in
  status_label p' = Error ∧
  (0%nat, print_server)
  ∈ alive (foldl step p' [ClickStart; StartThread all_up;
                          ClickStop clean_stop; CloseWindow clean_stop]).
Proof.
  intros p'. split; [reflexivity|].
  destruct (orphaned_print_server new_panel bot_missing
              [ClickStart; StartThread all_up; ClickStop clean_stop;
               CloseWindow clean_stop]) as [_ Hin].
  - repeat split.
  - repeat split.
  - left. reflexivity.
  - exact Hin.
Defined.
End Panel.
